(** * rssfeed-scanner: disease validation and feed-activity aggregation

    A shallow embedding of [src/main.py].  The program resolves a disease
    name against the NIH MeSH service, checks that the descriptor sits in
    the Diseases tree, and then queries a list of RSS feeds, stopping at the
    first feed that shows activity.

    Conventions of the embedding.
    - Python [str] and [bytes] are [string]: sequences of code points below
      256.  Python [int] is [Z].
    - The libraries the program calls ([requests], [xml.etree.ElementTree],
      the JSON decoder, [bytes.decode]) are the fields of a [World] record;
      the program's own control flow is translated statement by statement.
    - Effects are threaded by a state-and-exception monad [M].  The state
      holds the HTTP requests issued so far and the calls made to [logging].
    - The iterator object of [SmartIterator] lives in an explicit object
      store, because [FeedsIterator.__call__] mutates the very object the
      list comprehension is pulling from.
    - The program is read as run by a Python 3 in which
      [collections.Iterable] still exists (before 3.10). *)

From stdpp Require Import base strings list gmap pretty.
From Stdlib Require Import ZArith Lia Ascii.

Open Scope Z_scope.

Set Warnings "-register-all".

(** ** Python values that travel through the program *)

(** What [response.json()] can return.  Numbers are integers here; JSON
    objects are kept as their item lists (keys are unique in a [dict]). *)
Inductive json : Type :=
  | JNull
  | JBool (b : bool)
  | JNum (n : Z)
  | JStr (s : string)
  | JArr (items : list json)
  | JObj (items : list (string * json)).

(** The exceptions that can leave one of the program's functions. *)
Inductive exn : Type :=
  | TypeError
  | KeyError
  | IndexError
  | ValueError
  | AttributeError
  | UnicodeDecodeError
  | ParseError
  | SystemError.   (* a reference to an object that was never created *)

(** An [xml.etree.ElementTree.Element]. *)
Inductive Element : Type :=
  | mkElement (tag : string) (attrib : list (string * string))
              (text : option string) (children : list Element).

Definition tag (e : Element) : string :=
  match e with mkElement t _ _ _ => t end.
Definition attrib (e : Element) : list (string * string) :=
  match e with mkElement _ a _ _ => a end.
Definition text (e : Element) : option string :=
  match e with mkElement _ _ t _ => t end.
Definition children (e : Element) : list Element :=
  match e with mkElement _ _ _ c => c end.

(** Lookup in a dict kept as an item list. *)
Fixpoint assoc {A : Type} (k : string) (items : list (string * A)) : option A :=
  match items with
  | [] => None
  | (k', v) :: rest => if String.eqb k k' then Some v else assoc k rest
  end.

(** ** HTTP *)

(** The [params] argument of [requests.get]: a dict or a ready query string. *)
Inductive query : Type :=
  | QDict (items : list (string * json))
  | QString (s : string).

Record request : Type := mkRequest { req_url : string; req_params : query }.

Record response : Type := mkResponse {
  status_code : Z;
  content : string;
  elapsed : string
}.

(** [requests.get] either raises (the text is [str(exc)]) or returns. *)
Inductive http_outcome : Type :=
  | RequestException (msg : string)
  | Responded (r : response).

(** The program's surroundings.  [respond] sees the requests issued before
    the current one, so a server may answer differently each time. *)
Record World : Type := mkWorld {
  respond : list request -> request -> http_outcome;
  bytes_decode : string -> option string;      (* None: UnicodeDecodeError *)
  xml_fromstring : string -> option Element;   (* None: ParseError *)
  response_json : response -> option json;     (* None: the decoder's ValueError *)
  repr_container : json -> string              (* str() of a list or dict *)
}.

(** ** Logging *)

Inductive level : Type := DEBUG | INFO | WARNING | ERROR.

#[global] Instance level_eq_dec : EqDecision level.
Proof. solve_decision. Defined.

Record log_record : Type := mkLog { log_level : level; log_msg : string }.

(** ** The effect monad *)

Record state : Type := mkState {
  history : list request;   (* HTTP requests issued, oldest first *)
  log : list log_record     (* calls to [logging], oldest first *)
}.

Inductive outcome (A : Type) : Type :=
  | Ok (a : A)
  | Raise (e : exn)
  | OutOfFuel.
Arguments Ok {A} a.
Arguments Raise {A} e.
Arguments OutOfFuel {A}.

Definition M (A : Type) : Type := state -> outcome A * state.

Definition ret {A : Type} (a : A) : M A := fun s => (Ok a, s).

Definition bind {A B : Type} (m : M A) (k : A -> M B) : M B :=
  fun s =>
    match m s with
    | (Ok a, s') => k a s'
    | (Raise e, s') => (Raise e, s')
    | (OutOfFuel, s') => (OutOfFuel, s')
    end.

Definition raise {A : Type} (e : exn) : M A := fun s => (Raise e, s).

Definition out_of_fuel {A : Type} : M A := fun s => (OutOfFuel, s).

Declare Scope py_scope.
Delimit Scope py_scope with py.
Notation "x <- c1 ;; c2" := (bind c1 (fun x => c2))
  (at level 100, c1 at next level, right associativity) : py_scope.
Notation "c1 ;;; c2" := (bind c1 (fun _ => c2))
  (at level 100, right associativity) : py_scope.
Open Scope py_scope.

(** [logging.<level>(msg)] *)
Definition logging (l : level) (msg : string) : M unit :=
  fun s => (Ok tt, {| history := history s; log := log s ++ [mkLog l msg] |}).

(** [requests.get(url, params=..., timeout=10)]: the request joins the
    history whatever its fate. *)
Definition requests_get (w : World) (url : string) (params : query) : M http_outcome :=
  fun s =>
    let rq := mkRequest url params in
    (Ok (respond w (history s) rq),
     {| history := history s ++ [rq]; log := log s |}).

(** The call wrapped in the program's
    [try ... except Exception as exc: logging.error(exc)]; the result is the
    value of the local [response], [None] when the call raised. *)
Definition try_get (w : World) (url : string) (params : query) : M (option response) :=
  r <- requests_get w url params;;
  match r with
  | RequestException msg => logging ERROR msg;;; ret None
  | Responded r => ret (Some r)
  end.

(** [bool(response)] is [response.ok]: no 4xx or 5xx status. *)
Definition response_ok (r : response) : bool :=
  negb ((400 <=? status_code r) && (status_code r <? 600)).

(** [response and response.status_code == requests.codes.ok], for a
    [response] that is not [None]. *)
Definition is_success (r : response) : bool :=
  response_ok r && (status_code r =? 200).

(** ** Built-ins the program leans on *)

(** [bool(x)] *)
Definition truthy (x : json) : bool :=
  match x with
  | JNull => false
  | JBool b => b
  | JNum n => negb (n =? 0)
  | JStr s => negb (String.eqb s "")
  | JArr items => match items with [] => false | _ => true end
  | JObj items => match items with [] => false | _ => true end
  end.

(** [x[0]] *)
Definition getitem0 (x : json) : M json :=
  match x with
  | JArr (first :: _) => ret first
  | JArr [] => raise IndexError
  | JStr (String c _) => ret (JStr (String c ""))
  | JStr "" => raise IndexError
  | JObj _ => raise KeyError
  | JNull | JBool _ | JNum _ => raise TypeError
  end.

(** [x[key]] for a string key *)
Definition getitem (x : json) (key : string) : M json :=
  match x with
  | JObj items =>
      match assoc key items with
      | Some v => ret v
      | None => raise KeyError
      end
  | _ => raise TypeError
  end.

(** [str(x)], as [str.format] renders a field value. *)
Definition py_str (w : World) (x : json) : string :=
  match x with
  | JNull => "None"
  | JBool true => "True"
  | JBool false => "False"
  | JNum n => pretty n
  | JStr s => s
  | JArr _ | JObj _ => repr_container w x
  end.

Definition on_value {A B : Type} (f : A -> B) (r : exn + A) : exn + B :=
  match r with
  | inl e => inl e
  | inr a => inr (f a)
  end.

(** [template.format(...)] with keyword arguments [kw], for the templates of this program: named
    fields without conversion or format spec, [{{] and [}}] as escaped
    braces.  [field] is the name being read when inside a replacement
    field.  Field values are pasted as they are, never re-scanned. *)
Fixpoint format_from (t : string) (field : option string)
    (kw : list (string * string)) : exn + string :=
  match t with
  | "" => match field with None => inr "" | Some _ => inl ValueError end
  | String c t' =>
      match field with
      | Some name =>
          if Ascii.eqb c "}" then
            match assoc name kw with
            | Some v => on_value (String.append v) (format_from t' None kw)
            | None => inl KeyError
            end
          else format_from t' (Some (name +:+ String c "")) kw
      | None =>
          if Ascii.eqb c "{" then
            match t' with
            | String c' t'' =>
                if Ascii.eqb c' "{" then on_value (String "{") (format_from t'' None kw)
                else format_from t' (Some "") kw
            | "" => inl ValueError
            end
          else if Ascii.eqb c "}" then
            match t' with
            | String c' t'' =>
                if Ascii.eqb c' "}" then on_value (String "}") (format_from t'' None kw)
                else inl ValueError
            | "" => inl ValueError
            end
          else on_value (String c) (format_from t' None kw)
      end
  end.

Definition lift {A : Type} (r : exn + A) : M A :=
  match r with
  | inl e => raise e
  | inr a => ret a
  end.

Definition format (t : string) (kw : list (string * string)) : M string :=
  lift (format_from t None kw).

(** [s.startswith(c)] for a one-character prefix *)
Definition startswith (s : string) (c : ascii) : bool :=
  match s with
  | String c' _ => Ascii.eqb c' c
  | "" => false
  end.

(** ** The two regular expressions *)

(** A character class. *)
Definition cls : Type := ascii -> bool.

Definition newline : ascii := "010"%char.

(** [.] matches anything but a newline; [\d] the decimal digits (below 256
    these are 0 to 9); [\D] the rest; [[^.]] anything but a full stop. *)
Definition any_char : cls := fun c => negb (Ascii.eqb c newline).
Definition literal (a : ascii) : cls := Ascii.eqb a.
Definition digit : cls :=
  fun c => let n := N_of_ascii c in ((48 <=? n) && (n <=? 57))%N.
Definition non_digit : cls := fun c => negb (digit c).
Definition not_full_stop : cls := fun c => negb (Ascii.eqb c ".").

(** Both patterns have the shape [prefix(singles plus+)]: a run of
    one-character atoms, then a group made of one-character atoms followed
    by a greedy [+] that ends the pattern. *)
Record regex : Type := mkRegex {
  re_prefix : list cls;
  group_singles : list cls;
  group_plus : cls
}.

(** The atoms of a pattern text without groups or repetition: [.] is the
    wildcard, anything else stands for itself. *)
Fixpoint atoms (pattern : string) : list cls :=
  match pattern with
  | "" => []
  | String c rest =>
      (if Ascii.eqb c "." then any_char else literal c) :: atoms rest
  end.

(** Match one-character atoms at the head of [s]; gives what was consumed
    and what is left. *)
Fixpoint match_atoms (p : list cls) (s : string) : option (string * string) :=
  match p with
  | [] => Some ("", s)
  | a :: p' =>
      match s with
      | String c s' =>
          if a c then
            '(m, rest) ← match_atoms p' s'; Some (String c m, rest)
          else None
      | "" => None
      end
  end.

(** The longest head of [s] within class [a]. *)
Fixpoint take_while (a : cls) (s : string) : string :=
  match s with
  | String c s' => if a c then String c (take_while a s') else ""
  | "" => ""
  end.

(** Match at the head of [s]; gives group 1. *)
Definition match_here (re : regex) (s : string) : option string :=
  '(_, s1) ← match_atoms (re_prefix re) s;
  '(g, s2) ← match_atoms (group_singles re) s1;
  match take_while (group_plus re) s2 with
  | "" => None
  | run => Some (g +:+ run)
  end.

(** [re.search(s)]: the leftmost match; gives [match.group(1)]. *)
Fixpoint search (re : regex) (s : string) : option string :=
  match match_here re s with
  | Some g => Some g
  | None =>
      match s with
      | String _ s' => search re s'
      | "" => None
      end
  end.

(** [re.compile('http://id.nlm.nih.gov/mesh/([^.]+)')] *)
Definition Base_tree_regex : regex :=
  mkRegex (atoms "http://id.nlm.nih.gov/mesh/") [] not_full_stop.

(** [re.compile('http://id.nlm.nih.gov/mesh/(\D\d+)')] *)
Definition Descriptor_id_regex : regex :=
  mkRegex (atoms "http://id.nlm.nih.gov/mesh/") [non_digit] digit.

(** [pattern.search(x)] on a JSON value: only a [str] is accepted. *)
Definition search_json (re : regex) (x : json) : M (option string) :=
  match x with
  | JStr s => ret (search re s)
  | _ => raise TypeError
  end.

(** [pattern.search(node.text)]: the text of an empty element is [None]. *)
Definition search_text (re : regex) (x : option string) : M (option string) :=
  match x with
  | Some s => ret (search re s)
  | None => raise TypeError
  end.

(** ** ElementPath selectors *)

(** The proper descendants of [e], in document order. *)
Fixpoint descendants (e : Element) : list Element :=
  match e with
  | mkElement _ _ _ cs =>
      (fix go (l : list Element) : list Element :=
         match l with
         | [] => []
         | c :: l' => c :: descendants c ++ go l'
         end) cs
  end.

(** [//tag] *)
Definition select_descendant (t : string) (result : list Element) : list Element :=
  result ≫= (fun elem => filter (fun e => tag e = t) (descendants elem)).

(** [/tag] *)
Definition select_child (t : string) (result : list Element) : list Element :=
  result ≫= (fun elem => filter (fun e => tag e = t) (children elem)).

(** [[@key='value']] *)
Definition select_attribute (key value : string) (result : list Element) : list Element :=
  filter (fun elem => assoc key (attrib elem) = Some value) result.

Definition sparql_ns : string := "{http://www.w3.org/2005/sparql-results#}".

(** [xml_root.findall(".//{ns}binding[@name='treeNum']/{ns}uri")] *)
Definition findall_treenum_uris (xml_root : Element) : list Element :=
  select_child (sparql_ns +:+ "uri")
    (select_attribute "name" "treeNum"
       (select_descendant (sparql_ns +:+ "binding") [xml_root])).

(** [xml_root.findall('./channel/item')] *)
Definition findall_channel_items (xml_root : Element) : list Element :=
  select_child "item" (select_child "channel" [xml_root]).

(** [response.content.decode()] *)
Definition decode (w : World) (b : string) : M string :=
  match bytes_decode w b with
  | Some s => ret s
  | None => raise UnicodeDecodeError
  end.

(** [ET.fromstring(s)] *)
Definition fromstring (w : World) (s : string) : M Element :=
  match xml_fromstring w s with
  | Some e => ret e
  | None => raise ParseError
  end.

(** [response.json()] *)
Definition json_of (w : World) (r : response) : M json :=
  match response_json w r with
  | Some j => ret j
  | None => raise ValueError
  end.

(** ** The program *)

(** Template for the NIH MeSH service tree query. *)
Definition Treenum_query_template : string := "
PREFIX meshv: <http://id.nlm.nih.gov/mesh/vocab#>
PREFIX mesh: <http://id.nlm.nih.gov/mesh/>
SELECT ?treeNum
FROM <http://id.nlm.nih.gov/mesh>
WHERE {{ mesh:{descriptor_id} meshv:treeNumber ?treeNum }}
ORDER BY ?treeNum
".

(** Templates for RSS feed service API query parameters indexed by feed URL. *)
Definition FeedQueryParams : gmap string string :=
  {[ "https://clinicaltrials.gov/ct2/results/rss.xml" :=
       "lup_d={inactivity_period_days}&cond={disease}&count={limit}" ]}.

Definition lookup_url : string := "https://id.nlm.nih.gov/mesh/lookup/descriptor".
Definition sparql_url : string := "https://id.nlm.nih.gov/mesh/sparql".

(** The [logging.debug('Call to ... took {seconds} seconds')] line that
    follows every successful call.  For the two MeSH calls the address is
    written into the template itself; the text that comes out is the same. *)
Definition log_elapsed (url : string) (r : response) : M unit :=
  msg <- format "Call to {feed_url} took {seconds} seconds"
           [("feed_url", url); ("seconds", elapsed r)];;
  logging DEBUG msg.

(** [fetch_mesh_descriptor(descriptor_label)]: the MeSH descriptor, or the
    empty dict when the label is not known. *)
Definition fetch_mesh_descriptor (w : World) (descriptor_label : string) : M json :=
  let result := JObj [] in
  let api_query_params :=
    QDict [("label", JStr descriptor_label); ("match", JStr "exact"); ("limit", JNum 10)] in
  response <- try_get w lookup_url api_query_params;;
  match response with
  | Some r =>
      if is_success r then
        log_elapsed lookup_url r;;;
        response_json <- json_of w r;;
        if truthy response_json then getitem0 response_json
        else ret result
      else ret result
  | None => ret result
  end.

(** [is_mesh_disease(mesh_descriptor)] *)
Definition is_mesh_disease (w : World) (mesh_descriptor : json) : M bool :=
  resource <- getitem mesh_descriptor "resource";;
  m <- search_json Descriptor_id_regex resource;;
  match m with
  | Some descriptor_id =>
      sparql_query <- format Treenum_query_template [("descriptor_id", descriptor_id)];;
      let api_query_params := QDict [("query", JStr sparql_query)] in
      response <- try_get w sparql_url api_query_params;;
      match response with
      | Some r =>
          if is_success r then
            log_elapsed sparql_url r;;;
            content_stringed <- decode w (content r);;
            xml_root <- fromstring w content_stringed;;
            let treenum_uri_nodes := findall_treenum_uris xml_root in
            match treenum_uri_nodes with
            | node0 :: _ =>
                let treenum_id := text node0 in
                m <- search_text Base_tree_regex treenum_id;;
                match m with
                | Some base_tree => ret (startswith base_tree "C")
                | None => ret false
                end
            | [] => ret false
            end
          else ret false
      | None => ret false
      end
  | None => ret false
  end.

(** A (channel item count, certainty) tuple. *)
Definition activity : Type := Z * bool.

(** [FeedQueryParams[feed_url].format(disease=disease_name,
    inactivity_period_days=inactivity_period_days, limit=1000)] *)
Definition feed_params (template disease_name : string) (inactivity_period_days : Z)
    : M string :=
  format template
    [("disease", disease_name);
     ("inactivity_period_days", pretty inactivity_period_days);
     ("limit", pretty 1000)].

(** [count_channel_items(feed_url, disease_name, inactivity_period_days)] *)
Definition count_channel_items (w : World) (feed_url disease_name : string)
    (inactivity_period_days : Z) : M activity :=
  match FeedQueryParams !! feed_url with
  | None =>
      msg <- format "No query params found for feed [{feed_url}] while checking [{disease_name}]"
               [("feed_url", feed_url); ("disease_name", disease_name)];;
      logging ERROR msg;;;
      ret (0, false)
  | Some template =>
      api_query_params <- feed_params template disease_name inactivity_period_days;;
      response <- try_get w feed_url (QString api_query_params);;
      match response with
      | Some r =>
          if is_success r then
            log_elapsed feed_url r;;;
            content_stringed <- decode w (content r);;
            xml_root <- fromstring w content_stringed;;
            let item_pubdate_nodes := findall_channel_items xml_root in
            ret (Z.of_nat (length item_pubdate_nodes), true)
          else ret (0, false)
      | None => ret (0, false)
      end
  end.

(** *** SmartIterator *)

(** An instance of [SmartIterator.__Inner]: the list iterator it wraps,
    kept as the items still to come, and the stop flag. *)
Record Inner : Type := mkInner {
  underlying_iterator : list string;
  stop : bool
}.

(** The objects of class [__Inner] that exist; a reference is an index. *)
Abbreviation store := (list Inner).

(** A [FeedsIterator] (a [SmartIterator] that can be called). *)
Record FeedsIterator : Type := mkFeedsIterator {
  iterable : list string;
  _inner : option nat
}.

(** [FeedsIterator(iterable)] *)
Definition new_FeedsIterator (iterable : list string) : FeedsIterator :=
  mkFeedsIterator iterable None.

(** [SmartIterator.__iter__]: makes a fresh [__Inner], keeps a reference to
    it in [self._inner] and returns the same reference. *)
Definition SmartIterator_iter (self : FeedsIterator) (h : store)
    : nat * FeedsIterator * store :=
  let ref := length h in
  (ref, mkFeedsIterator (iterable self) (Some ref),
   h ++ [mkInner (iterable self) false]).

(** [__Inner.__next__]: [None] stands for [StopIteration], whether raised
    here or by the list iterator underneath. *)
Definition Inner_next (self : nat) (h : store) : exn + (option string * store) :=
  match h !! self with
  | None => inl SystemError
  | Some obj =>
      if stop obj then inr (None, h)
      else
        match underlying_iterator obj with
        | [] => inr (None, h)
        | x :: rest => inr (Some x, <[self := mkInner rest (stop obj)]> h)
        end
  end.

(** [__Inner.stop] *)
Definition Inner_stop (self : nat) (h : store) : exn + store :=
  match h !! self with
  | None => inl SystemError
  | Some obj => inr (<[self := mkInner (underlying_iterator obj) true]> h)
  end.

(** [FeedsIterator.__call__] *)
Definition FeedsIterator_call (self : FeedsIterator) (channel_items : activity)
    (h : store) : exn + (activity * store) :=
  let '(count, _) := channel_items in
  if 0 <? count then
    match _inner self with
    | None => inl AttributeError
    | Some ref => on_value (fun h' => (channel_items, h')) (Inner_stop ref h)
    end
  else inr (channel_items, h).

(** The list comprehension
    [[feeder(count_channel_items(feed_url, ...)) for feed_url in feeder]]
    once [iter(feeder)] has returned [it].  Every turn pulls from [it];
    [fuel] bounds the number of pulls. *)
Fixpoint comprehension (fuel : nat) (w : World) (feeder : FeedsIterator) (it : nat)
    (disease_name : string) (inactivity_period_days : Z) (h : store)
    : M (list activity) :=
  match fuel with
  | O => out_of_fuel
  | S fuel' =>
      pull <- lift (Inner_next it h);;
      let '(pulled, h1) := pull in
      match pulled with
      | None => ret []
      | Some feed_url =>
          channel_items <- count_channel_items w feed_url disease_name inactivity_period_days;;
          called <- lift (FeedsIterator_call feeder channel_items h1);;
          let '(item, h2) := called in
          rest <- comprehension fuel' w feeder it disease_name inactivity_period_days h2;;
          ret (item :: rest)
      end
  end.

(** Lines 232-233 of [check_disease_feeds]: the list [activity].  A list of
    n items is exhausted by n + 1 pulls. *)
Definition feeds_activity (w : World) (disease_name : string) (feed_urls : list string)
    (inactivity_period_days : Z) : M (list activity) :=
  let feeder := new_FeedsIterator feed_urls in
  let '(it, feeder, h) := SmartIterator_iter feeder [] in
  comprehension (S (length feed_urls)) w feeder it disease_name inactivity_period_days h.

(** [functools.reduce(f, l)] without an initial value. *)
Definition reduce {A : Type} (f : A -> A -> A) (l : list A) : M A :=
  match l with
  | [] => raise TypeError
  | x :: rest => ret (fold_left f rest x)
  end.

(** The lambda handed to [reduce]. *)
Definition add_activity (acc arg : activity) : activity :=
  (acc.1 + arg.1, acc.2 && arg.2).

(** Lines 232-235: the pair [(channel_items_total, is_certain)]. *)
Definition aggregate_feeds (w : World) (disease_name : string) (feed_urls : list string)
    (inactivity_period_days : Z) : M activity :=
  activity <- feeds_activity w disease_name feed_urls inactivity_period_days;;
  reduce add_activity activity.

(** Lines 236-242: log inactivity results. *)
Definition log_inactivity (disease_name : string) (total : activity) : M unit :=
  let '(channel_items_total, is_certain) := total in
  if channel_items_total =? 0 then
    if is_certain then
      msg <- format "[{disease_name}] has been inactive" [("disease_name", disease_name)];;
      logging INFO msg
    else
      msg <- format "Inactivity for [{disease_name}] could not be determined with certainty"
               [("disease_name", disease_name)];;
      logging INFO msg
  else ret tt.

(** [check_disease_feeds(disease_name, feed_urls, inactivity_period_days)] *)
Definition check_disease_feeds (w : World) (disease_name : string)
    (feed_urls : list string) (inactivity_period_days : Z) : M unit :=
  total <- aggregate_feeds w disease_name feed_urls inactivity_period_days;;
  log_inactivity disease_name total.

(** The condition
    [not bool(mesh_descriptor) or not is_mesh_disease(mesh_descriptor)];
    [or] does not evaluate its right side when the left is true. *)
Definition not_recognized (w : World) (mesh_descriptor : json) : M bool :=
  if negb (truthy mesh_descriptor) then ret true
  else
    b <- is_mesh_disease w mesh_descriptor;;
    ret (negb b).

(** [check_disease_activity(work_unit, inactivity_period_days)].  The label
    taken from the descriptor is only ever pasted into templates, so it is
    turned into its [str] here. *)
Definition check_disease_activity (w : World) (work_unit : string * list string)
    (inactivity_period_days : Z) : M unit :=
  let '(disease_name, feed_urls) := work_unit in
  mesh_descriptor <- fetch_mesh_descriptor w disease_name;;
  skip <- not_recognized w mesh_descriptor;;
  if skip then
    msg <- format "[{disease_name}] is not a recognized MeSH disease descriptor name; skipping"
             [("disease_name", disease_name)];;
    logging WARNING msg
  else
    label <- getitem mesh_descriptor "label";;
    let mesh_disease_name := py_str w label in
    check_disease_feeds w mesh_disease_name feed_urls inactivity_period_days.

(** The [for work_unit in work_units] loop. *)
Fixpoint for_each_work_unit (w : World) (work_units : list (string * list string))
    (inactivity_period_days : Z) : M unit :=
  match work_units with
  | [] => ret tt
  | work_unit :: rest =>
      check_disease_activity w work_unit inactivity_period_days;;;
      for_each_work_unit w rest inactivity_period_days
  end.

(** [log_disease_inactivity(work_units, inactivity_period_days)] *)
Definition log_disease_inactivity (w : World) (work_units : list (string * list string))
    (inactivity_period_days : Z) : M unit :=
  msg <- format "Begin checking disease RSS feed activity; inactivity period = {period} days"
           [("period", pretty inactivity_period_days)];;
  logging INFO msg;;;
  for_each_work_unit w work_units inactivity_period_days;;;
  logging INFO "End checking disease RSS feed activity".

(** * Vocabulary of the statements *)

(** The texts the program logs, written out. *)
Definition missing_params_msg (feed_url disease_name : string) : string :=
  "No query params found for feed [" +:+ feed_url +:+ "] while checking [" +:+
  disease_name +:+ "]".

Definition elapsed_msg (url : string) (r : response) : string :=
  "Call to " +:+ url +:+ " took " +:+ elapsed r +:+ " seconds".

Definition inactive_msg (disease_name : string) : string :=
  "[" +:+ disease_name +:+ "] has been inactive".

Definition indeterminate_msg (disease_name : string) : string :=
  "Inactivity for [" +:+ disease_name +:+ "] could not be determined with certainty".

Definition not_recognized_msg (disease_name : string) : string :=
  "[" +:+ disease_name +:+ "] is not a recognized MeSH disease descriptor name; skipping".

(** The query string sent to the one configured feed. *)
Definition feed_query (disease_name : string) (inactivity_period_days : Z) : string :=
  "lup_d=" +:+ pretty inactivity_period_days +:+ "&cond=" +:+ disease_name +:+
  "&count=1000".

(** The state once [rq] has been sent, and once a line has been logged. *)
Definition sent (s : state) (rq : request) : state :=
  {| history := history s ++ [rq]; log := log s |}.

Definition logged (s : state) (l : level) (msg : string) : state :=
  {| history := history s; log := log s ++ [mkLog l msg] |}.

(** The request that asks [feed_url] about a disease. *)
Definition feed_request (disease_name : string) (inactivity_period_days : Z)
    (feed_url : string) : request :=
  mkRequest feed_url (QString (feed_query disease_name inactivity_period_days)).

Definition configured (feed_url : string) : Prop :=
  is_Some (FeedQueryParams !! feed_url).

#[global] Instance configured_dec feed_url : Decision (configured feed_url).
Proof. unfold configured. apply _. Defined.

(** The part of [count_channel_items] that follows the arrival of the
    response [r] to the request [rq], as a function of that response. *)
Definition after_response (w : World) (feed_url : string) (s : state) (rq : request)
    (r : response) : outcome activity * state :=
  let s1 := sent s rq in
  if is_success r then
    let s2 := logged s1 DEBUG (elapsed_msg feed_url r) in
    match bytes_decode w (content r) with
    | None => (Raise UnicodeDecodeError, s2)
    | Some content_stringed =>
        match xml_fromstring w content_stringed with
        | None => (Raise ParseError, s2)
        | Some xml_root =>
            (Ok (Z.of_nat (length (findall_channel_items xml_root)), true), s2)
        end
    end
  else (Ok (0, false), s1).

(** The requests a call of [count_channel_items] issues: one for a
    configured feed, none otherwise. *)
Definition feed_requests (disease_name : string) (inactivity_period_days : Z)
    (feed_url : string) : list request :=
  if decide (configured feed_url)
  then [feed_request disease_name inactivity_period_days feed_url]
  else [].

(** The traversal as a plain recursion over the list of feeds: query the
    feeds in order and stop after the first one that reports items. *)
Fixpoint short_circuit (w : World) (disease_name : string) (inactivity_period_days : Z)
    (feed_urls : list string) : M (list activity) :=
  match feed_urls with
  | [] => ret []
  | feed_url :: rest =>
      x <- count_channel_items w feed_url disease_name inactivity_period_days;;
      if 0 <? x.1 then ret [x]
      else
        xs <- short_circuit w disease_name inactivity_period_days rest;;
        ret (x :: xs)
  end.

(** Query every feed of a list, in order. *)
Fixpoint query_each (w : World) (disease_name : string) (inactivity_period_days : Z)
    (feed_urls : list string) : M (list activity) :=
  match feed_urls with
  | [] => ret []
  | feed_url :: rest =>
      x <- count_channel_items w feed_url disease_name inactivity_period_days;;
      xs <- query_each w disease_name inactivity_period_days rest;;
      ret (x :: xs)
  end.

(** Every result but the last has count 0, and when feeds were left
    unvisited the last result has a positive count. *)
Definition stops_at_first_active (results : list activity) (remaining : list string)
    : Prop :=
  forall (i : nat) (x : activity),
    results !! i = Some x ->
    ((S i < length results)%nat -> x.1 = 0) /\
    (S i = length results -> remaining <> [] -> 0 < x.1).

(** The sum of the counts and the conjunction of the certainty flags. *)
Definition total_count (results : list activity) : Z :=
  foldr (fun x acc => x.1 + acc) 0 results.

Definition all_certain (results : list activity) : bool :=
  forallb snd results.

(** The request that looks a label up. *)
Definition lookup_request (descriptor_label : string) : request :=
  mkRequest lookup_url
    (QDict [("label", JStr descriptor_label); ("match", JStr "exact"); ("limit", JNum 10)]).

(** The part of [fetch_mesh_descriptor] that follows the arrival of the
    response [r] to the request [rq]. *)
Definition after_lookup (w : World) (s : state) (rq : request) (r : response)
    : outcome json * state :=
  let s1 := sent s rq in
  if is_success r then
    let s2 := logged s1 DEBUG (elapsed_msg lookup_url r) in
    match response_json w r with
    | None => (Raise ValueError, s2)
    | Some decoded => if truthy decoded then getitem0 decoded s2 else (Ok (JObj []), s2)
    end
  else (Ok (JObj []), s1).

(** The tree query for a descriptor id. *)
Definition treenum_query (descriptor_id : string) : string :=
  "
PREFIX meshv: <http://id.nlm.nih.gov/mesh/vocab#>
PREFIX mesh: <http://id.nlm.nih.gov/mesh/>
SELECT ?treeNum
FROM <http://id.nlm.nih.gov/mesh>
WHERE { mesh:" +:+ descriptor_id +:+ " meshv:treeNumber ?treeNum }
ORDER BY ?treeNum
".

Definition sparql_request (descriptor_id : string) : request :=
  mkRequest sparql_url (QDict [("query", JStr (treenum_query descriptor_id))]).

(** What [is_mesh_disease] makes of the first tree-number node. *)
Definition under_diseases (treenum_uri_nodes : list Element) : outcome bool :=
  match treenum_uri_nodes with
  | [] => Ok false
  | node0 :: _ =>
      match text node0 with
      | None => Raise TypeError
      | Some treenum_id =>
          match search Base_tree_regex treenum_id with
          | Some base_tree => Ok (startswith base_tree "C")
          | None => Ok false
          end
      end
  end.

(** The part of [is_mesh_disease] that follows the arrival of the response
    [r] to the request [rq]. *)
Definition after_tree_query (w : World) (s : state) (rq : request) (r : response)
    : outcome bool * state :=
  let s1 := sent s rq in
  if is_success r then
    let s2 := logged s1 DEBUG (elapsed_msg sparql_url r) in
    match bytes_decode w (content r) with
    | None => (Raise UnicodeDecodeError, s2)
    | Some content_stringed =>
        match xml_fromstring w content_stringed with
        | None => (Raise ParseError, s2)
        | Some xml_root => (under_diseases (findall_treenum_uris xml_root), s2)
        end
    end
  else (Ok false, s1).

(** The conditions under which [is_mesh_disease] answers [True]: the
    resource URI matches [Descriptor_id_regex], the tree query is answered
    with status 200 and a body that parses, the body lists a tree-number URI,
    and group 1 of [Base_tree_regex] on the first one starts with C. *)
Definition in_diseases_tree (w : World) (s : state) (mesh_descriptor : json) : Prop :=
  exists items resource descriptor_id r content_stringed xml_root node0 others
         treenum_id base_tree,
    mesh_descriptor = JObj items /\
    assoc "resource" items = Some (JStr resource) /\
    search Descriptor_id_regex resource = Some descriptor_id /\
    respond w (history s) (sparql_request descriptor_id) = Responded r /\
    status_code r = 200 /\
    bytes_decode w (content r) = Some content_stringed /\
    xml_fromstring w content_stringed = Some xml_root /\
    findall_treenum_uris xml_root = node0 :: others /\
    text node0 = Some treenum_id /\
    search Base_tree_regex treenum_id = Some base_tree /\
    startswith base_tree "C" = true.

(** A request to one of the two MeSH services; neither address is a
    configured feed. *)
Definition mesh_request (rq : request) : Prop :=
  (req_url rq = lookup_url \/ req_url rq = sparql_url) /\ ~ configured (req_url rq).

(** The lines [log_inactivity] writes for an aggregate. *)
Definition inactivity_report (disease_name : string) (total : activity)
    : list log_record :=
  if total.1 =? 0 then
    [mkLog INFO (if total.2 then inactive_msg disease_name
                 else indeterminate_msg disease_name)]
  else [].

(** * Sample surroundings *)

Definition clinicaltrials : string := "https://clinicaltrials.gov/ct2/results/rss.xml".

(** An RSS document whose channel holds [n] items. *)
Definition rss (n : nat) : Element :=
  mkElement "rss" []
    None [mkElement "channel" [] None (replicate n (mkElement "item" [] None []))].

(** A SPARQL result listing the given tree-number URIs. *)
Definition sparql_results (uris : list string) : Element :=
  mkElement (sparql_ns +:+ "sparql") [] None
    [mkElement (sparql_ns +:+ "results") [] None
       ((fun uri =>
           mkElement (sparql_ns +:+ "result") [] None
             [mkElement (sparql_ns +:+ "binding") [("name", "treeNum")] None
                [mkElement (sparql_ns +:+ "uri") [] (Some uri) []]]) <$> uris)].

(** Surroundings in which each of the three services gives one fixed
    answer.  The body of an answer is decoded as it is; the body ["tree"]
    parses to [tree], any other body to [feed_doc]. *)
Definition fake_world (lookup sparql feed : http_outcome) (decoded : option json)
    (tree feed_doc : option Element) : World :=
  mkWorld
    (fun _ rq =>
       if String.eqb (req_url rq) lookup_url then lookup
       else if String.eqb (req_url rq) sparql_url then sparql
       else feed)
    Some
    (fun body => if String.eqb body "tree" then tree else feed_doc)
    (fun _ => decoded)
    (fun _ => "").

Definition answer (status : Z) (body : string) : http_outcome :=
  Responded (mkResponse status body "0:00:01").

Definition refused : http_outcome := RequestException "connection refused".

(** Every feed answers with five items. *)
Definition five_items_world : World :=
  fake_world refused refused (answer 200 "feed") None None (Some (rss 5)).

(** Every feed answers with no item. *)
Definition no_items_world : World :=
  fake_world refused refused (answer 200 "feed") None None (Some (rss 0)).

(** Every feed answers 200 with a body that is not XML. *)
Definition garbled_feed_world : World :=
  fake_world refused refused (answer 200 "<rss") None None None.

Definition start : state := mkState [] [].

(** The descriptor of Wolman Disease as the lookup service lists it. *)
Definition wolman : json :=
  JObj [("resource", JStr "http://id.nlm.nih.gov/mesh/D015223");
        ("label", JStr "Wolman Disease")].

(** The lookup service knows the label; the tree query places it under
    C16 and C18; the feed holds no item. *)
Definition wolman_world : World :=
  fake_world (answer 200 "lookup") (answer 200 "tree") (answer 200 "feed")
    (Some (JArr [wolman]))
    (Some (sparql_results ["http://id.nlm.nih.gov/mesh/C16.320.565.398.641.509";
                           "http://id.nlm.nih.gov/mesh/C18.452.584.500.875.992"]))
    (Some (rss 0)).

(** The tree query is answered 200 with a body that is not XML. *)
Definition garbled_tree_world : World :=
  fake_world (answer 200 "lookup") (answer 200 "<sparql") (answer 200 "feed")
    (Some (JArr [wolman])) None None.

(** The lookup service knows no such label. *)
Definition unknown_label_world : World :=
  fake_world (answer 200 "[]") refused (answer 200 "feed")
    (Some (JArr [])) None (Some (rss 5)).

(** * The rest of the program *)

(** ** The iterator on its own *)

(** Pulling from an [__Inner] until it raises [StopIteration], the way a
    plain [for] loop or [list(...)] drives an iterator; the values pulled
    come back in order.  [None] when [fuel] pulls were not enough. *)
Fixpoint exhaust (fuel : nat) (it : nat) (h : store)
    : option (exn + (list string * store)) :=
  match fuel with
  | O => None
  | S fuel' =>
      match Inner_next it h with
      | inl e => Some (inl e)
      | inr (None, h1) => Some (inr ([], h1))
      | inr (Some x, h1) =>
          match exhaust fuel' it h1 with
          | Some (inr (xs, h2)) => Some (inr (x :: xs, h2))
          | other => other
          end
      end
  end.

(** ** The command line *)

(** The name of a long option: what precedes the first [=]. *)
Fixpoint before_equals (opt : string) : string :=
  match opt with
  | "" => ""
  | String c rest => if Ascii.eqb c "=" then "" else String c (before_equals rest)
  end.

(** [getopt.do_shorts(opts, optstring, 'd', args)]: every letter of the
    cluster has to be [d], which takes no argument.  The left side is the
    text of the [GetoptError]. *)
Fixpoint do_shorts (opts : list (string * string)) (optstring : string)
    : string + list (string * string) :=
  match optstring with
  | "" => inr opts
  | String opt optstring' =>
      if Ascii.eqb opt "d" then do_shorts (opts ++ [("-d", "")]) optstring'
      else inl ("option -" +:+ String opt "" +:+ " not recognized")
  end.

(** [getopt.getopt(args, 'd')]: options are read while the arguments start
    with [-] and are not [-] itself; [--] ends them; there is no long option,
    so every [--name] is an error. *)
Fixpoint getopt (opts : list (string * string)) (args : list string)
    : string + (list (string * string) * list string) :=
  match args with
  | [] => inr (opts, [])
  | String c1 tail1 :: rest =>
      if Ascii.eqb c1 "-" then
        match tail1 with
        | "" => inr (opts, args)
        | String c2 tail2 =>
            if Ascii.eqb c2 "-" then
              match tail2 with
              | "" => inr (opts, rest)
              | _ => inl ("option --" +:+ before_equals tail2 +:+ " not recognized")
              end
            else
              match do_shorts opts tail1 with
              | inl exc => inl exc
              | inr opts' => getopt opts' rest
              end
        end
      else inr (opts, args)
  | "" :: _ => inr (opts, args)
  end.

(** The work units written into [main]. *)
Definition sample_work_units : list (string * list string) :=
  [("Alzheimer Disease", ["https://clinicaltrials.gov/ct2/results/rss.xml"]);
   ("Wolman Disease", ["https://clinicaltrials.gov/ct2/results/rss.xml"]);
   ("Cron's Disease", ["https://clinicaltrials.gov/ct2/results/rss.xml"]);
   ("Crohn's Disease", ["https://clinicaltrials.gov/ct2/results/rss.xml"]);
   ("Crohn Disease", ["https://clinicaltrials.gov/ct2/results/rss.xml";
                      "https://clinicaltrials.gov/ct2/results/rss.xml"])].

(** How [main] ends: [sys.exit(exc)] with the text of the error, or the
    workflow run under the chosen logging level. *)
Inductive main_outcome : Type :=
  | SystemExit (msg : string)
  | Completed (lvl : level) (run : outcome unit * state).

(** The [for opt, arg in opts] loop of [main]. *)
Definition choose_level (opts : list (string * string)) : level :=
  fold_left
    (fun log_level (o : string * string) =>
       if String.eqb o.1 "-d" || String.eqb o.1 "--debug" then DEBUG else log_level)
    opts INFO.

(** [main(argv)] *)
Definition main (w : World) (argv : list string) (s : state) : main_outcome :=
  match getopt [] (drop 1 argv) with
  | inl exc => SystemExit exc
  | inr (opts, _) =>
      let log_level := choose_level opts in
      Completed log_level (log_disease_inactivity w sample_work_units 14 s)
  end.

(** * More vocabulary *)

(** [s'] is [s] with requests and log lines added at the end. *)
Definition extends (s s' : state) : Prop :=
  (exists requests, history s' = history s ++ requests) /\
  (exists lines, log s' = log s ++ lines).

(** A computation that only ever adds to the state. *)
Definition appends {A : Type} (m : M A) : Prop := forall s, extends s (m s).2.

(** Every character of [s] is in class [a]. *)
Fixpoint all_in (a : cls) (s : string) : bool :=
  match s with
  | "" => true
  | String c rest => a c && all_in a rest
  end.

(** The count of the result at which a traversal ended. *)
Definition last_count (results : list activity) : Z :=
  match last results with
  | Some x => x.1
  | None => 0
  end.

Definition begin_msg (inactivity_period_days : Z) : string :=
  "Begin checking disease RSS feed activity; inactivity period = " +:+
  pretty inactivity_period_days +:+ " days".

Definition end_msg : string := "End checking disease RSS feed activity".

(** * More sample surroundings *)

(** The lookup answers 200 with a body that is not JSON. *)
Definition garbled_lookup_world : World :=
  fake_world (answer 200 "<html>") refused refused None None None.

(** The lookup answers with the JSON text [null]. *)
Definition null_lookup_world : World :=
  fake_world (answer 200 "null") refused refused (Some JNull) None None.

(** The tree query is answered with a binding whose [uri] is empty. *)
Definition empty_uri_world : World :=
  fake_world (answer 200 "lookup") (answer 200 "tree") refused
    (Some (JArr [wolman]))
    (Some (mkElement (sparql_ns +:+ "sparql") [] None
             [mkElement (sparql_ns +:+ "binding") [("name", "treeNum")] None
                [mkElement (sparql_ns +:+ "uri") [] None []]]))
    None.

(** The feed answers 200 with a page that is XML but no RSS document. *)
Definition error_page_world : World :=
  fake_world refused refused (answer 200 "page") None None
    (Some (mkElement "html" [] None [mkElement "body" [] (Some "Service unavailable") []])).

(** The lookup lists a descriptor without a label. *)
Definition unlabelled : json :=
  JObj [("resource", JStr "http://id.nlm.nih.gov/mesh/D015223")].

Definition unlabelled_world : World :=
  fake_world (answer 200 "lookup") (answer 200 "tree") (answer 200 "feed")
    (Some (JArr [unlabelled]))
    (Some (sparql_results ["http://id.nlm.nih.gov/mesh/C16.320.565.398.641.509"]))
    (Some (rss 0)).

(** * Properties *)

(** ** The embedding at work *)

Example search_descriptor_id :
  search Descriptor_id_regex "http://id.nlm.nih.gov/mesh/D015223" = Some "D015223".
Proof. reflexivity. Qed.

Example search_descriptor_id_none :
  search Descriptor_id_regex "http://id.nlm.nih.gov/mesh/2020" = None.
Proof. reflexivity. Qed.

Example search_base_tree :
  search Base_tree_regex "http://id.nlm.nih.gov/mesh/C16.320.565.398" = Some "C16".
Proof. reflexivity. Qed.

Example format_escaped_braces :
  format_from "WHERE {{ mesh:{descriptor_id} }}" None [("descriptor_id", "D015223")]
  = inr "WHERE { mesh:D015223 }".
Proof. reflexivity. Qed.

Example format_unknown_field :
  format_from "cond={disease}" None [("limit", "1000")] = inl KeyError.
Proof. reflexivity. Qed.

Example findall_items : length (findall_channel_items (rss 3)) = 3%nat.
Proof. reflexivity. Qed.

Example findall_uris :
  text <$> findall_treenum_uris
             (sparql_results ["http://id.nlm.nih.gov/mesh/C16.320";
                              "http://id.nlm.nih.gov/mesh/C18.452"])
  = [Some "http://id.nlm.nih.gov/mesh/C16.320"; Some "http://id.nlm.nih.gov/mesh/C18.452"].
Proof. reflexivity. Qed.

(** With activity on every feed, the second of two feeds is not asked. *)
Example two_active_feeds :
  history (check_disease_feeds five_items_world "Crohn Disease"
             [clinicaltrials; clinicaltrials] 14 start).2
  = [feed_request "Crohn Disease" 14 clinicaltrials].
Proof. reflexivity. Qed.

(** With no activity anywhere, both are asked. *)
Example two_silent_feeds :
  history (check_disease_feeds no_items_world "Wolman Disease"
             [clinicaltrials; clinicaltrials] 14 start).2
  = [feed_request "Wolman Disease" 14 clinicaltrials;
     feed_request "Wolman Disease" 14 clinicaltrials].
Proof. reflexivity. Qed.

(** The lines of the sample run that are not debug lines. *)
Example sample_run :
  filter (fun r => log_level r <> DEBUG)
    (log (log_disease_inactivity wolman_world
            [("Wolman Disease", [clinicaltrials])] 14 start).2)
  = [mkLog INFO "Begin checking disease RSS feed activity; inactivity period = 14 days";
     mkLog INFO "[Wolman Disease] has been inactive";
     mkLog INFO "End checking disease RSS feed activity"].
Proof. reflexivity. Qed.

(** ** Running a computation *)

Lemma bind_ok {A B : Type} (m : M A) (k : A -> M B) s a s' :
  m s = (Ok a, s') -> bind m k s = k a s'.
Proof. intros H. unfold bind. by rewrite H. Qed.

Lemma bind_raise {A B : Type} (m : M A) (k : A -> M B) s e s' :
  m s = (Raise e, s') -> bind m k s = (Raise e, s').
Proof. intros H. unfold bind. by rewrite H. Qed.

Lemma bind_out_of_fuel {A B : Type} (m : M A) (k : A -> M B) s s' :
  m s = (OutOfFuel, s') -> bind m k s = (OutOfFuel, s').
Proof. intros H. unfold bind. by rewrite H. Qed.

Lemma bind_ret {A B : Type} (a : A) (k : A -> M B) s : bind (ret a) k s = k a s.
Proof. reflexivity. Qed.

(** ** The texts the program writes *)

Lemma format_missing_params feed_url disease_name :
  format "No query params found for feed [{feed_url}] while checking [{disease_name}]"
    [("feed_url", feed_url); ("disease_name", disease_name)]
  = ret (missing_params_msg feed_url disease_name).
Proof. reflexivity. Qed.

Lemma format_elapsed url r :
  format "Call to {feed_url} took {seconds} seconds"
    [("feed_url", url); ("seconds", elapsed r)]
  = ret (elapsed_msg url r).
Proof. reflexivity. Qed.

Lemma format_inactive disease_name :
  format "[{disease_name}] has been inactive" [("disease_name", disease_name)]
  = ret (inactive_msg disease_name).
Proof. reflexivity. Qed.

Lemma format_indeterminate disease_name :
  format "Inactivity for [{disease_name}] could not be determined with certainty"
    [("disease_name", disease_name)]
  = ret (indeterminate_msg disease_name).
Proof. reflexivity. Qed.

Lemma format_not_recognized disease_name :
  format "[{disease_name}] is not a recognized MeSH disease descriptor name; skipping"
    [("disease_name", disease_name)]
  = ret (not_recognized_msg disease_name).
Proof. reflexivity. Qed.

Lemma format_feed_params disease_name inactivity_period_days :
  feed_params "lup_d={inactivity_period_days}&cond={disease}&count={limit}"
    disease_name inactivity_period_days
  = ret (feed_query disease_name inactivity_period_days).
Proof. reflexivity. Qed.

(** The table has one entry. *)
Lemma FeedQueryParams_lookup feed_url template :
  FeedQueryParams !! feed_url = Some template ->
  feed_url = "https://clinicaltrials.gov/ct2/results/rss.xml" /\
  template = "lup_d={inactivity_period_days}&cond={disease}&count={limit}".
Proof.
  unfold FeedQueryParams. intros H.
  apply lookup_singleton_Some in H. destruct H as [-> <-]. done.
Qed.

Lemma log_elapsed_run url r s :
  log_elapsed url r s =
  (Ok tt, {| history := history s; log := log s ++ [mkLog DEBUG (elapsed_msg url r)] |}).
Proof. unfold log_elapsed. rewrite format_elapsed. reflexivity. Qed.

(** ** One feed query *)

Section one_feed.
Variable w : World.
Variables feed_url disease_name : string.
Variable inactivity_period_days : Z.
Variable s : state.

Local Abbreviation rq := (feed_request disease_name inactivity_period_days feed_url).
Local Abbreviation run := (count_channel_items w feed_url disease_name inactivity_period_days s).

Lemma count_unconfigured :
  ~ configured feed_url ->
  run = (Ok (0, false), logged s ERROR (missing_params_msg feed_url disease_name)).
Proof.
  unfold count_channel_items, configured. intros H.
  destruct (FeedQueryParams !! feed_url) eqn:E.
  - exfalso. apply H. by eexists.
  - rewrite format_missing_params. reflexivity.
Qed.

Lemma count_configured :
  configured feed_url ->
  run =
  match respond w (history s) rq with
  | RequestException msg => (Ok (0, false), logged (sent s rq) ERROR msg)
  | Responded r => after_response w feed_url s rq r
  end.
Proof.
  unfold count_channel_items, configured. intros [t E].
  rewrite E. apply FeedQueryParams_lookup in E as [_ ->].
  rewrite format_feed_params.
  unfold bind at 1. simpl. unfold bind at 1.
  unfold try_get, bind at 1. unfold requests_get. simpl.
  change (mkRequest _ _) with rq.
  destruct (respond w (history s) rq) as [msg | r]; [reflexivity |].
  simpl. unfold after_response.
  destruct (is_success r); [| reflexivity].
  unfold bind at 1. rewrite log_elapsed_run. simpl.
  unfold bind at 1, decode. simpl.
  destruct (bytes_decode w (content r)) as [content_stringed |]; [| reflexivity].
  simpl. unfold bind at 1, fromstring.
  destruct (xml_fromstring w content_stringed); reflexivity.
Qed.

End one_feed.

Lemma count_history w feed_url disease_name inactivity_period_days s :
  history (count_channel_items w feed_url disease_name inactivity_period_days s).2 =
  history s ++ feed_requests disease_name inactivity_period_days feed_url.
Proof.
  unfold feed_requests. destruct (decide (configured feed_url)) as [Hc | Hc].
  - rewrite count_configured by done.
    destruct (respond _ _ _) as [msg | r]; [reflexivity |].
    unfold after_response. destruct (is_success r); [| reflexivity].
    destruct (bytes_decode _ _) as [c |]; [| reflexivity].
    destruct (xml_fromstring _ _); reflexivity.
  - rewrite count_unconfigured by done. simpl. by rewrite app_nil_r.
Qed.

Lemma count_terminates w feed_url disease_name inactivity_period_days s :
  (count_channel_items w feed_url disease_name inactivity_period_days s).1 <> OutOfFuel.
Proof.
  destruct (decide (configured feed_url)) as [Hc | Hc].
  - rewrite count_configured by done.
    destruct (respond _ _ _) as [msg | r]; [done |].
    unfold after_response. destruct (is_success r); [| done].
    destruct (bytes_decode _ _) as [c |]; [| done].
    destruct (xml_fromstring _ _); done.
  - rewrite count_unconfigured by done. done.
Qed.

Lemma count_nonneg w feed_url disease_name inactivity_period_days s count certainty s' :
  count_channel_items w feed_url disease_name inactivity_period_days s
  = (Ok (count, certainty), s') ->
  0 <= count.
Proof.
  destruct (decide (configured feed_url)) as [Hc | Hc].
  - rewrite count_configured by done.
    destruct (respond _ _ _) as [msg | r]; [intros [= <- _ _]; lia |].
    unfold after_response. destruct (is_success r); [| intros [= <- _ _]; lia].
    destruct (bytes_decode _ _) as [c |]; [| done].
    destruct (xml_fromstring _ _); [| done].
    intros [= <- _ _]. lia.
  - rewrite count_unconfigured by done. intros [= <- _ _]. lia.
Qed.

(** ** The traversal *)

(** The iterator protocol, with its shared [__Inner] object, computes the
    plain recursion. *)
Lemma comprehension_short_circuit w feeder it disease_name inactivity_period_days :
  _inner feeder = Some it ->
  forall feed_urls fuel h s,
    h !! it = Some (mkInner feed_urls false) ->
    (length feed_urls < fuel)%nat ->
    comprehension fuel w feeder it disease_name inactivity_period_days h s =
    short_circuit w disease_name inactivity_period_days feed_urls s.
Proof.
  intros Hinner. induction feed_urls as [| feed_url rest IH]; intros fuel h s Hh Hfuel.
  - destruct fuel as [| fuel]; [simpl in Hfuel; lia |].
    simpl. unfold Inner_next. rewrite Hh. reflexivity.
  - destruct fuel as [| fuel]; [simpl in Hfuel; lia |].
    simpl in Hfuel.
    assert (Hlt : (it < length h)%nat) by (eapply lookup_lt_Some; eauto).
    cbn [comprehension short_circuit]. unfold Inner_next. rewrite Hh.
    cbn [stop underlying_iterator lift]. rewrite bind_ret.
    destruct (count_channel_items w feed_url disease_name inactivity_period_days s)
      as [[[count certainty] | e |] s1] eqn:E.
    2: { by rewrite !(bind_raise _ _ _ _ _ E). }
    2: { by rewrite !(bind_out_of_fuel _ _ _ _ E). }
    rewrite !(bind_ok _ _ _ _ _ E).
    unfold FeedsIterator_call. rewrite Hinner. cbn [fst].
    destruct (0 <? count) eqn:Hcount.
    + unfold Inner_stop. rewrite list_lookup_insert_eq by done.
      cbn [on_value lift underlying_iterator]. rewrite bind_ret.
      destruct fuel as [| fuel]; [lia |].
      cbn [comprehension]. unfold Inner_next. rewrite list_lookup_insert_eq
        by (rewrite length_insert; done).
      reflexivity.
    + cbn [lift]. rewrite bind_ret.
      unfold bind. rewrite IH; [reflexivity | | lia].
      by rewrite list_lookup_insert_eq.
Qed.

Lemma feeds_activity_short_circuit w disease_name feed_urls inactivity_period_days s :
  feeds_activity w disease_name feed_urls inactivity_period_days s =
  short_circuit w disease_name inactivity_period_days feed_urls s.
Proof.
  unfold feeds_activity, SmartIterator_iter, new_FeedsIterator.
  cbn [iterable length app].
  apply comprehension_short_circuit; [reflexivity | reflexivity | lia].
Qed.

Lemma bind_ret_cons (m : M (list activity)) (x : activity) s :
  bind m (fun xs => ret (x :: xs)) s =
  (match (m s).1 with
   | Ok xs => Ok (x :: xs)
   | Raise e => Raise e
   | OutOfFuel => OutOfFuel
   end, (m s).2).
Proof. unfold bind. by destruct (m s) as [[xs | e |] s']. Qed.

Lemma short_circuit_prefix w disease_name inactivity_period_days feed_urls :
  forall s,
  exists evaluated remaining : list string,
    feed_urls = evaluated ++ remaining /\
    (evaluated = [] -> remaining = []) /\
    short_circuit w disease_name inactivity_period_days feed_urls s =
      query_each w disease_name inactivity_period_days evaluated s /\
    history (short_circuit w disease_name inactivity_period_days feed_urls s).2 =
      history s ++ (evaluated ≫= feed_requests disease_name inactivity_period_days) /\
    match (short_circuit w disease_name inactivity_period_days feed_urls s).1 with
    | Ok results =>
        length results = length evaluated /\ stops_at_first_active results remaining
    | Raise _ => True
    | OutOfFuel => False
    end.
Proof.
  induction feed_urls as [| feed_url rest IH]; intros s.
  { exists [], []. simpl. rewrite app_nil_r. split_and!; try done. }
  pose proof (count_history w feed_url disease_name inactivity_period_days s) as Hhist.
  pose proof (count_terminates w feed_url disease_name inactivity_period_days s) as Hterm.
  cbn [short_circuit].
  destruct (count_channel_items w feed_url disease_name inactivity_period_days s)
    as [[[count certainty] | e |] s1] eqn:E; [| | done].
  2: { exists [feed_url], rest. cbn [query_each].
       rewrite !(bind_raise _ _ _ _ _ E). simpl in *. rewrite app_nil_r.
       by split_and!. }
  rewrite (bind_ok _ _ _ _ _ E). cbn [fst].
  destruct (0 <? count) eqn:Hcount.
  { exists [feed_url], rest. cbn [query_each].
    rewrite (bind_ok _ _ _ _ _ E). simpl in *. rewrite app_nil_r.
    split_and!; try done.
    intros [| i] x Hx; simpl in Hx; [| by rewrite lookup_nil in Hx].
    injection Hx as <-. simpl. split; lia. }
  destruct (IH s1) as (evaluated & remaining & -> & Hnil & Hsame & Hh & Hres).
  exists (feed_url :: evaluated), remaining. cbn [query_each].
  rewrite (bind_ok _ _ _ _ _ E). rewrite !bind_ret_cons, <- Hsame.
  simpl in Hhist. cbn [snd fst].
  split_and!; try done.
  - rewrite Hh, Hhist. simpl. by rewrite <- app_assoc.
  - destruct (short_circuit w disease_name inactivity_period_days
                (evaluated ++ remaining) s1) as [[xs | e |] s2]; simpl in *; [| done | done].
    destruct Hres as [Hlen Hstop]. split; [by rewrite Hlen |].
    intros [| i] x Hx; simpl in Hx.
    + injection Hx as <-. simpl. split.
      * intros _. apply count_nonneg in E. lia.
      * intros Hone Hrem. exfalso. apply Hrem, Hnil.
        destruct evaluated; [done | simpl in *; lia].
    + destruct (Hstop i x Hx) as [H1 H2]. split.
      * intros Hi. simpl in Hi. apply H1. lia.
      * intros Hi. simpl in Hi. apply H2. lia.
Qed.

(** ** Aggregation *)

Lemma fold_left_add_activity (results : list activity) (acc : activity) :
  fold_left add_activity results acc =
  (acc.1 + total_count results, acc.2 && all_certain results).
Proof.
  revert acc. induction results as [| x results IH]; intros [count certainty]; simpl.
  - f_equal; [lia | by rewrite andb_true_r].
  - rewrite IH. simpl. f_equal; [lia | by rewrite andb_assoc].
Qed.

Lemma reduce_add_activity (x : activity) (results : list activity) s :
  reduce add_activity (x :: results) s =
  (Ok (total_count (x :: results), all_certain (x :: results)), s).
Proof.
  unfold reduce, ret. rewrite fold_left_add_activity. by destruct x.
Qed.

(** C1: the feeds are visited in the given order and the visit ends right
    after the first feed whose count is positive, so that no request goes to
    a later feed.  For any list of feeds there is a split into the feeds
    evaluated and the feeds left alone such that the run is that of querying
    the evaluated feeds one after the other, the requests issued are theirs
    alone, every result but the last has count 0, and the last has a positive
    count whenever feeds are left.  In particular, with feeds [A; B] and A
    giving (5, True), the run ends in the state reached after A alone and
    the aggregate is (5, True). *)
Theorem C1_short_circuit (w : World) (disease_name : string) (inactivity_period_days : Z) :
  (forall (feed_urls : list string) (s : state),
     exists evaluated remaining : list string,
       feed_urls = evaluated ++ remaining /\
       (evaluated = [] -> remaining = []) /\
       feeds_activity w disease_name feed_urls inactivity_period_days s =
         query_each w disease_name inactivity_period_days evaluated s /\
       history (feeds_activity w disease_name feed_urls inactivity_period_days s).2 =
         history s ++ (evaluated ≫= feed_requests disease_name inactivity_period_days) /\
       match (feeds_activity w disease_name feed_urls inactivity_period_days s).1 with
       | Ok results =>
           length results = length evaluated /\ stops_at_first_active results remaining
       | Raise _ => True
       | OutOfFuel => False
       end) /\
  (forall (A B : string) (s s1 : state),
     count_channel_items w A disease_name inactivity_period_days s = (Ok (5, true), s1) ->
     feeds_activity w disease_name [A; B] inactivity_period_days s = (Ok [(5, true)], s1) /\
     aggregate_feeds w disease_name [A; B] inactivity_period_days s = (Ok (5, true), s1)).
Proof.
  split.
  - intros feed_urls s. rewrite feeds_activity_short_circuit.
    apply short_circuit_prefix.
  - intros A B s s1 HA.
    assert (Hrun : feeds_activity w disease_name [A; B] inactivity_period_days s
                   = (Ok [(5, true)], s1)).
    { rewrite feeds_activity_short_circuit. cbn [short_circuit].
      by rewrite (bind_ok _ _ _ _ _ HA). }
    split; [done |].
    unfold aggregate_feeds. by rewrite (bind_ok _ _ _ _ _ Hrun).
Qed.

(** With two feeds that both hold five items, one request goes out and the
    aggregate is (5, True). *)
Lemma C1_short_circuit_witness :
  aggregate_feeds five_items_world "Crohn Disease"
    [clinicaltrials; clinicaltrials] 14 start =
  (Ok (5, true),
   {| history := [feed_request "Crohn Disease" 14 clinicaltrials];
      log := [mkLog DEBUG "Call to https://clinicaltrials.gov/ct2/results/rss.xml took 0:00:01 seconds"] |}).
Proof.
  apply (proj2 (C1_short_circuit five_items_world "Crohn Disease" 14)
           clinicaltrials clinicaltrials start).
  reflexivity.
Defined.

(** C2: when the run has produced a non-empty list of results, the
    aggregate count is the sum of their counts and the aggregate certainty is
    the conjunction of their flags; one uncertain result makes the aggregate
    uncertain. *)
Theorem C2_sum_and_conjunction (w : World) (disease_name : string)
    (feed_urls : list string) (inactivity_period_days : Z)
    (s s' : state) (results : list activity) :
  feeds_activity w disease_name feed_urls inactivity_period_days s = (Ok results, s') ->
  results <> [] ->
  aggregate_feeds w disease_name feed_urls inactivity_period_days s =
    (Ok (total_count results, all_certain results), s') /\
  (forall x : activity, x ∈ results -> x.2 = false -> all_certain results = false).
Proof.
  intros Hrun Hne. split.
  - unfold aggregate_feeds. rewrite (bind_ok _ _ _ _ _ Hrun).
    destruct results as [| x results]; [done |]. apply reduce_add_activity.
  - intros x Hx Hfalse. unfold all_certain.
    apply not_true_is_false. intros Hall.
    rewrite forallb_forall in Hall.
    apply list_elem_of_In in Hx. apply Hall in Hx. congruence.
Qed.

(** An unconfigured feed followed by an empty one: (0, False) and (0, True)
    add up to (0, False). *)
Lemma C2_sum_and_conjunction_witness :
  aggregate_feeds no_items_world "Wolman Disease"
    ["https://example.org/rss"; clinicaltrials] 14 start =
  (Ok (0, false),
   (feeds_activity no_items_world "Wolman Disease"
      ["https://example.org/rss"; clinicaltrials] 14 start).2).
Proof.
  refine (proj1 (C2_sum_and_conjunction no_items_world "Wolman Disease"
                   ["https://example.org/rss"; clinicaltrials] 14 start _
                   [(0, false); (0, true)] _ _)).
  - reflexivity.
  - discriminate.
Defined.

Lemma feeds_activity_nonempty w disease_name feed_url rest inactivity_period_days s s' :
  feeds_activity w disease_name (feed_url :: rest) inactivity_period_days s <> (Ok [], s').
Proof.
  rewrite feeds_activity_short_circuit. cbn [short_circuit]. unfold bind at 1.
  destruct (count_channel_items w feed_url disease_name inactivity_period_days s)
    as [[x | e |] s1]; [| done | done].
  destruct (0 <? x.1); [done |].
  rewrite bind_ret_cons.
  by destruct (short_circuit w disease_name inactivity_period_days rest s1).1.
Qed.

(** C9: for the empty list of feeds the fold has nothing to start from:
    [reduce] raises [TypeError], no request is issued, nothing is logged and
    no aggregate comes back.  For a list that is not empty the fold itself
    never raises: the aggregate is that of the results whenever the feed
    queries return. *)
Theorem C9_empty_feed_list_raises (w : World) (disease_name : string)
    (inactivity_period_days : Z) (s : state) :
  feeds_activity w disease_name [] inactivity_period_days s = (Ok [], s) /\
  aggregate_feeds w disease_name [] inactivity_period_days s = (Raise TypeError, s) /\
  check_disease_feeds w disease_name [] inactivity_period_days s = (Raise TypeError, s) /\
  (forall (feed_url : string) (rest : list string),
     (aggregate_feeds w disease_name (feed_url :: rest) inactivity_period_days s).1 =
     match (feeds_activity w disease_name (feed_url :: rest) inactivity_period_days s).1 with
     | Ok results => Ok (total_count results, all_certain results)
     | Raise e => Raise e
     | OutOfFuel => OutOfFuel
     end).
Proof.
  split_and!; try reflexivity.
  intros feed_url rest. unfold aggregate_feeds, bind.
  pose proof (feeds_activity_nonempty w disease_name feed_url rest
                inactivity_period_days s) as Hne.
  destruct (feeds_activity w disease_name (feed_url :: rest) inactivity_period_days s)
    as [[[| x results] | e |] s1]; [by destruct (Hne s1) | | done | done].
  by rewrite reduce_add_activity.
Qed.

(** ** One feed query: failures and the shape of the result *)

Lemma is_success_200 (r : response) : is_success r = true <-> status_code r = 200.
Proof. unfold is_success, response_ok. lia. Qed.

Lemma is_success_other (r : response) : is_success r = false <-> status_code r <> 200.
Proof. rewrite <- is_success_200. by destruct (is_success r). Qed.

(** C3, as the code has it: for a configured feed, a transport failure and
    a status other than 200 both give (0, False) without raising.  A body
    that cannot be decoded or parsed is not absorbed: the decoder's or the
    parser's exception leaves [count_channel_items]. *)
Theorem C3_failures_amended (w : World) (feed_url disease_name : string)
    (inactivity_period_days : Z) (s : state) :
  configured feed_url ->
  let rq := feed_request disease_name inactivity_period_days feed_url in
  let run := count_channel_items w feed_url disease_name inactivity_period_days s in
  (forall msg, respond w (history s) rq = RequestException msg ->
     run = (Ok (0, false), logged (sent s rq) ERROR msg)) /\
  (forall r, respond w (history s) rq = Responded r -> status_code r <> 200 ->
     run = (Ok (0, false), sent s rq)) /\
  (forall r, respond w (history s) rq = Responded r -> status_code r = 200 ->
     bytes_decode w (content r) = None ->
     run.1 = Raise UnicodeDecodeError) /\
  (forall r content_stringed,
     respond w (history s) rq = Responded r -> status_code r = 200 ->
     bytes_decode w (content r) = Some content_stringed ->
     xml_fromstring w content_stringed = None ->
     run.1 = Raise ParseError).
Proof.
  intros Hc rq run. unfold run. rewrite count_configured by done. fold rq.
  split_and!.
  - by intros msg ->.
  - intros r -> Hst. apply is_success_other in Hst.
    unfold after_response. by rewrite Hst.
  - intros r -> Hst Hdec. apply is_success_200 in Hst.
    unfold after_response. by rewrite Hst, Hdec.
  - intros r c -> Hst Hdec Hxml. apply is_success_200 in Hst.
    unfold after_response. by rewrite Hst, Hdec, Hxml.
Qed.

(** A feed that answers 503 gives (0, False). *)
Lemma C3_failures_amended_witness :
  count_channel_items
    (fake_world refused refused (answer 503 "") None None None)
    clinicaltrials "Wolman Disease" 14 start =
  (Ok (0, false), sent start (feed_request "Wolman Disease" 14 clinicaltrials)).
Proof.
  refine (proj1 (proj2 (C3_failures_amended _ clinicaltrials "Wolman Disease" 14 start _))
            (mkResponse 503 "" "0:00:01") _ _).
  - by eexists.
  - reflexivity.
  - simpl. lia.
Defined.

(** C3 fails as stated: a feed answers 200 with a body that is not XML, and
    the call raises [ParseError] instead of returning (0, False). *)
Lemma C3_parse_failure_propagates :
  respond garbled_feed_world [] (feed_request "Wolman Disease" 14 clinicaltrials)
    = answer 200 "<rss" /\
  xml_fromstring garbled_feed_world "<rss" = None /\
  (count_channel_items garbled_feed_world clinicaltrials "Wolman Disease" 14 start).1
    = Raise ParseError /\
  (count_channel_items garbled_feed_world clinicaltrials "Wolman Disease" 14 start).1
    <> Ok (0, false).
Proof. split_and!; [reflexivity | reflexivity | reflexivity | discriminate]. Qed.

(** C7: for a feed URL that is not in [FeedQueryParams], no request is
    issued, one error is logged, and the result is (0, False). *)
Theorem C7_unconfigured_feed (w : World) (feed_url disease_name : string)
    (inactivity_period_days : Z) (s : state) :
  FeedQueryParams !! feed_url = None ->
  exists s',
    count_channel_items w feed_url disease_name inactivity_period_days s
      = (Ok (0, false), s') /\
    history s' = history s /\
    log s' = log s ++ [mkLog ERROR (missing_params_msg feed_url disease_name)].
Proof.
  intros Hnone. eexists. split; [| split].
  - apply count_unconfigured. unfold configured. rewrite Hnone. by intros [? ?].
  - reflexivity.
  - reflexivity.
Qed.

Lemma C7_unconfigured_feed_witness :
  exists s',
    count_channel_items five_items_world "https://example.org/rss" "Wolman Disease" 14 start
      = (Ok (0, false), s') /\
    history s' = [] /\
    log s' = [mkLog ERROR
      "No query params found for feed [https://example.org/rss] while checking [Wolman Disease]"].
Proof.
  apply (C7_unconfigured_feed five_items_world "https://example.org/rss"
           "Wolman Disease" 14 start).
  reflexivity.
Defined.

(** C10: a result of [count_channel_items] has a count that is not
    negative; an uncertain result has count 0; and a certain result with
    count 0 comes from a request that was answered with status 200 and a
    body that parsed to a document without channel items. *)
Theorem C10_result_shape (w : World) (feed_url disease_name : string)
    (inactivity_period_days : Z) (s s' : state) (count : Z) (certain : bool) :
  count_channel_items w feed_url disease_name inactivity_period_days s
    = (Ok (count, certain), s') ->
  0 <= count /\
  (certain = false -> count = 0) /\
  (certain = true -> count = 0 ->
   exists r content_stringed xml_root,
     respond w (history s) (feed_request disease_name inactivity_period_days feed_url)
       = Responded r /\
     status_code r = 200 /\
     bytes_decode w (content r) = Some content_stringed /\
     xml_fromstring w content_stringed = Some xml_root /\
     findall_channel_items xml_root = []).
Proof.
  intros Hrun. split; [by eapply count_nonneg |].
  destruct (decide (configured feed_url)) as [Hc | Hc].
  2: { rewrite count_unconfigured in Hrun by done. injection Hrun as <- <- _.
       split; [done | discriminate]. }
  rewrite count_configured in Hrun by done.
  destruct (respond _ _ _) as [msg | r].
  { injection Hrun as <- <- _. split; [done | discriminate]. }
  unfold after_response in Hrun.
  destruct (is_success r) eqn:Hst.
  2: { injection Hrun as <- <- _. split; [done | discriminate]. }
  destruct (bytes_decode _ _) as [content_stringed |] eqn:Hdec; [| done].
  destruct (xml_fromstring _ _) as [xml_root |] eqn:Hxml; [| done].
  injection Hrun as <- <- _. split; [discriminate |].
  intros _ Hzero. exists r, content_stringed, xml_root.
  apply is_success_200 in Hst. split_and!; try done.
  destruct (findall_channel_items xml_root); [done | simpl in Hzero; lia].
Qed.

Lemma C10_result_shape_witness :
  0 <= 0 /\
  (true = false -> 0 = 0) /\
  (true = true -> 0 = 0 ->
   exists r content_stringed xml_root,
     respond no_items_world (history start)
       (feed_request "Wolman Disease" 14 clinicaltrials) = Responded r /\
     status_code r = 200 /\
     bytes_decode no_items_world (content r) = Some content_stringed /\
     xml_fromstring no_items_world content_stringed = Some xml_root /\
     findall_channel_items xml_root = []).
Proof.
  refine (C10_result_shape no_items_world clinicaltrials "Wolman Disease" 14 start _ 0 true _).
  reflexivity.
Defined.

(** ** Resolving a label *)

Lemma fetch_run w descriptor_label s :
  fetch_mesh_descriptor w descriptor_label s =
  match respond w (history s) (lookup_request descriptor_label) with
  | RequestException msg =>
      (Ok (JObj []), logged (sent s (lookup_request descriptor_label)) ERROR msg)
  | Responded r => after_lookup w s (lookup_request descriptor_label) r
  end.
Proof.
  unfold fetch_mesh_descriptor, try_get, requests_get, after_lookup.
  unfold bind at 1. unfold bind at 1. cbn [fst snd].
  change (mkRequest lookup_url _) with (lookup_request descriptor_label).
  destruct (respond w (history s) (lookup_request descriptor_label)) as [msg | r];
    [reflexivity |].
  cbn. destruct (is_success r); [| reflexivity].
  unfold bind at 1. rewrite log_elapsed_run.
  unfold bind at 1, json_of.
  destruct (response_json w r) as [decoded |]; [| reflexivity].
  cbn. by destruct (truthy decoded).
Qed.

Lemma fetch_history w descriptor_label s :
  history (fetch_mesh_descriptor w descriptor_label s).2 =
  history s ++ [lookup_request descriptor_label].
Proof.
  rewrite fetch_run. destruct (respond _ _ _) as [msg | r]; [reflexivity |].
  unfold after_lookup. destruct (is_success r); [| reflexivity].
  destruct (response_json w r) as [decoded |]; [| reflexivity].
  destruct (truthy decoded); [| reflexivity].
  by destruct decoded as [| | | [| ? ?] | [| ? ?] | ].
Qed.

(** C8, as the code has it.  [fetch_mesh_descriptor] returns the empty
    dict, which counts as no descriptor, when the request fails, when the
    status is not 200 and when the decoded result set is empty; it returns
    the first entry of a non-empty result set.  A failed request and a
    status other than 200 are never raised to the caller: an exception can
    leave the function only after an answer with status 200.  Such an answer
    with a body that is not JSON is not absorbed: the decoder's [ValueError]
    leaves [fetch_mesh_descriptor]. *)
Theorem C8_descriptor_resolution_amended (w : World) (descriptor_label : string)
    (s : state) :
  let rq := lookup_request descriptor_label in
  let run := fetch_mesh_descriptor w descriptor_label s in
  truthy (JObj []) = false /\
  (forall msg, respond w (history s) rq = RequestException msg ->
     run = (Ok (JObj []), logged (sent s rq) ERROR msg)) /\
  (forall r, respond w (history s) rq = Responded r -> status_code r <> 200 ->
     run = (Ok (JObj []), sent s rq)) /\
  (forall r, respond w (history s) rq = Responded r -> status_code r = 200 ->
     response_json w r = Some (JArr []) ->
     run = (Ok (JObj []), logged (sent s rq) DEBUG (elapsed_msg lookup_url r))) /\
  (forall r first others,
     respond w (history s) rq = Responded r -> status_code r = 200 ->
     response_json w r = Some (JArr (first :: others)) ->
     run = (Ok first, logged (sent s rq) DEBUG (elapsed_msg lookup_url r))) /\
  (forall e, run.1 = Raise e ->
     exists r, respond w (history s) rq = Responded r /\ status_code r = 200) /\
  (forall r, respond w (history s) rq = Responded r -> status_code r = 200 ->
     response_json w r = None ->
     run = (Raise ValueError, logged (sent s rq) DEBUG (elapsed_msg lookup_url r))).
Proof.
  intros rq run. unfold run. rewrite fetch_run. fold rq. split_and!.
  - reflexivity.
  - by intros msg ->.
  - intros r -> Hst. apply is_success_other in Hst.
    unfold after_lookup. by rewrite Hst.
  - intros r -> Hst Hjson. apply is_success_200 in Hst.
    unfold after_lookup. by rewrite Hst, Hjson.
  - intros r first others -> Hst Hjson. apply is_success_200 in Hst.
    unfold after_lookup. by rewrite Hst, Hjson.
  - intros e. destruct (respond w (history s) rq) as [msg | r]; [discriminate |].
    unfold after_lookup. destruct (is_success r) eqn:Hst; [| discriminate].
    apply is_success_200 in Hst. intros _. by exists r.
  - intros r -> Hst Hjson. apply is_success_200 in Hst.
    unfold after_lookup. by rewrite Hst, Hjson.
Qed.

Lemma C8_descriptor_resolution_amended_witness :
  fetch_mesh_descriptor wolman_world "Wolman Disease" start =
  (Ok wolman,
   logged (sent start (lookup_request "Wolman Disease")) DEBUG
     "Call to https://id.nlm.nih.gov/mesh/lookup/descriptor took 0:00:01 seconds").
Proof.
  refine (proj1 (proj2 (proj2 (proj2 (proj2
            (C8_descriptor_resolution_amended wolman_world "Wolman Disease" start)))))
            (mkResponse 200 "lookup" "0:00:01") wolman [] _ _ _);
    reflexivity.
Defined.

(** C8 fails as stated: the lookup is answered 200 with a body that is not
    JSON, and the failed resolution reaches the caller as [ValueError]
    instead of coming back as the empty dict. *)
Lemma C8_json_failure_propagates :
  respond garbled_lookup_world [] (lookup_request "Wolman Disease")
    = answer 200 "<html>" /\
  response_json garbled_lookup_world (mkResponse 200 "<html>" "0:00:01") = None /\
  (fetch_mesh_descriptor garbled_lookup_world "Wolman Disease" start).1
    = Raise ValueError /\
  (fetch_mesh_descriptor garbled_lookup_world "Wolman Disease" start).1
    <> Ok (JObj []).
Proof. split_and!; [reflexivity | reflexivity | reflexivity | discriminate]. Qed.

(** ** Classifying a descriptor *)

Lemma format_treenum_query descriptor_id :
  format Treenum_query_template [("descriptor_id", descriptor_id)]
  = ret (treenum_query descriptor_id).
Proof. reflexivity. Qed.

Lemma is_mesh_disease_run w items resource s :
  assoc "resource" items = Some (JStr resource) ->
  is_mesh_disease w (JObj items) s =
  match search Descriptor_id_regex resource with
  | None => (Ok false, s)
  | Some descriptor_id =>
      match respond w (history s) (sparql_request descriptor_id) with
      | RequestException msg =>
          (Ok false, logged (sent s (sparql_request descriptor_id)) ERROR msg)
      | Responded r => after_tree_query w s (sparql_request descriptor_id) r
      end
  end.
Proof.
  intros Hres. unfold is_mesh_disease, getitem. rewrite Hres.
  rewrite bind_ret. cbn [search_json]. rewrite bind_ret.
  destruct (search Descriptor_id_regex resource) as [descriptor_id |]; [| reflexivity].
  rewrite format_treenum_query, bind_ret.
  unfold try_get, requests_get, after_tree_query.
  unfold bind at 1. unfold bind at 1. cbn [fst snd].
  change (mkRequest sparql_url _) with (sparql_request descriptor_id).
  destruct (respond w (history s) (sparql_request descriptor_id)) as [msg | r];
    [reflexivity |].
  cbn -[findall_treenum_uris]. destruct (is_success r); [| reflexivity].
  unfold bind at 1. rewrite log_elapsed_run.
  unfold bind at 1, decode.
  destruct (bytes_decode w (content r)) as [content_stringed |]; [| reflexivity].
  cbn -[findall_treenum_uris]. unfold bind at 1, fromstring.
  destruct (xml_fromstring w content_stringed) as [xml_root |]; [| reflexivity].
  cbn -[findall_treenum_uris]. unfold under_diseases.
  destruct (findall_treenum_uris xml_root) as [| node0 others]; [reflexivity |].
  unfold search_text. destruct (text node0) as [treenum_id |]; [| reflexivity].
  rewrite bind_ret.
  by destruct (search Base_tree_regex treenum_id).
Qed.

(** A descriptor without a string under ['resource'] makes the function
    raise before any request. *)
Lemma is_mesh_disease_no_resource w d s :
  (forall items resource, d = JObj items -> assoc "resource" items <> Some (JStr resource)) ->
  exists e, is_mesh_disease w d s = (Raise e, s).
Proof.
  intros Hno. unfold is_mesh_disease.
  destruct d as [| b | n | str | l | items]; try (by eexists).
  unfold getitem. destruct (assoc "resource" items) as [v |] eqn:Hres; [| by eexists].
  rewrite bind_ret.
  destruct v as [| b | n | resource | l | o]; try (by eexists).
  by destruct (Hno items resource).
Qed.

(** Either the descriptor is a dict with a string under ['resource'], or
    it is not. *)
Lemma classic_resource (d : json) :
  (exists items resource, d = JObj items /\ assoc "resource" items = Some (JStr resource)) \/
  (forall items resource, d = JObj items -> assoc "resource" items <> Some (JStr resource)).
Proof.
  destruct d as [| b | n | str | l | items]; try (right; intros ? ? [=]; done).
  destruct (assoc "resource" items) as [[| b | n | resource | l | o] |] eqn:Hres;
    try (right; intros ? ? [= <-]; congruence).
  left. by exists items, resource.
Qed.

Lemma search_here (re : regex) (s g : string) :
  match_here re s = Some g -> search re s = Some g.
Proof. intros H. destruct s; simpl; by rewrite H. Qed.

(** A pattern text without groups or repetition matches itself. *)
Lemma match_atoms_self (p s : string) :
  match_atoms (atoms p) (p +:+ s) = Some (p, s).
Proof.
  induction p as [| c p IH]; [reflexivity |].
  change (String c p +:+ s) with (String c (p +:+ s)).
  cbn [atoms match_atoms].
  assert (Hc : (if Ascii.eqb c "." then any_char else literal c) c = true).
  { destruct (Ascii.eqb c ".") eqn:E.
    - apply Ascii.eqb_eq in E as ->. reflexivity.
    - unfold literal. apply Ascii.eqb_refl. }
  rewrite Hc, IH. reflexivity.
Qed.

(** The tree-number URIs the service hands out have this shape; group 1 of
    [Base_tree_regex] then starts with the letter that follows the prefix. *)
Lemma base_tree_starts_with_root (root : ascii) (rest : string) :
  root <> "."%char ->
  search Base_tree_regex ("http://id.nlm.nih.gov/mesh/" +:+ String root rest)
  = Some (String root (take_while not_full_stop rest)).
Proof.
  intros Hroot.
  assert (Hclass : not_full_stop root = true).
  { unfold not_full_stop. apply negb_true_iff. by apply Ascii.eqb_neq. }
  apply search_here. unfold match_here, Base_tree_regex.
  cbn [re_prefix group_singles group_plus].
  rewrite match_atoms_self. cbn [mbind option_bind match_atoms take_while].
  rewrite Hclass. reflexivity.
Qed.

Lemma is_mesh_disease_true w d s :
  (is_mesh_disease w d s).1 = Ok true <-> in_diseases_tree w s d.
Proof.
  split.
  - intros Htrue.
    destruct (classic_resource d) as [(items & resource & -> & Hres) | Hno].
    2: { destruct (is_mesh_disease_no_resource w d s Hno) as [e He].
         rewrite He in Htrue. discriminate. }
    rewrite (is_mesh_disease_run _ _ _ _ Hres) in Htrue.
    destruct (search Descriptor_id_regex resource) as [descriptor_id |] eqn:Hid;
      [| discriminate].
    destruct (respond _ _ _) as [msg | r] eqn:Hresp; [discriminate |].
    unfold after_tree_query in Htrue.
    destruct (is_success r) eqn:Hst; [| discriminate].
    destruct (bytes_decode _ _) as [content_stringed |] eqn:Hdec; [| discriminate].
    destruct (xml_fromstring _ _) as [xml_root |] eqn:Hxml; [| discriminate].
    unfold under_diseases in Htrue. cbn [fst] in Htrue.
    destruct (findall_treenum_uris xml_root) as [| node0 others] eqn:Hnodes;
      [discriminate |].
    destruct (text node0) as [treenum_id |] eqn:Htext; [| discriminate].
    destruct (search Base_tree_regex treenum_id) as [base_tree |] eqn:Hbase;
      [| discriminate].
    injection Htrue as Hc. apply is_success_200 in Hst.
    exists items, resource, descriptor_id, r, content_stringed, xml_root, node0, others,
      treenum_id, base_tree.
    by split_and!.
  - intros (items & resource & descriptor_id & r & content_stringed & xml_root & node0
            & others & treenum_id & base_tree & -> & Hres & Hid & Hresp & Hst & Hdec
            & Hxml & Hnodes & Htext & Hbase & Hc).
    apply is_success_200 in Hst.
    rewrite (is_mesh_disease_run _ _ _ _ Hres), Hid, Hresp.
    unfold after_tree_query. rewrite Hst, Hdec, Hxml, Hnodes.
    unfold under_diseases. by rewrite Htext, Hbase, Hc.
Qed.

(** C4, as the code has it.  [is_mesh_disease] answers [True] exactly when
    the resource URI matches the identifier pattern, the tree query is
    answered with status 200, the body parses and lists a tree-number URI,
    and the first one has C as the first letter of its base tree.  It
    answers [False] on a pattern mismatch (without sending a request), on a
    transport failure, on a status other than 200, on a body without
    tree-number URIs, and when the first URI does not match the tree pattern
    or has another first letter.  A body that cannot be decoded or parsed is
    not turned into [False]: the exception leaves the function. *)
Theorem C4_classification_amended (w : World) (mesh_descriptor : json) (s : state) :
  let run := is_mesh_disease w mesh_descriptor s in
  (run.1 = Ok true <-> in_diseases_tree w s mesh_descriptor) /\
  (forall items resource,
     mesh_descriptor = JObj items ->
     assoc "resource" items = Some (JStr resource) ->
     (search Descriptor_id_regex resource = None -> run = (Ok false, s)) /\
     (forall descriptor_id,
        search Descriptor_id_regex resource = Some descriptor_id ->
        let rq := sparql_request descriptor_id in
        (forall msg, respond w (history s) rq = RequestException msg ->
           run = (Ok false, logged (sent s rq) ERROR msg)) /\
        (forall r, respond w (history s) rq = Responded r -> status_code r <> 200 ->
           run = (Ok false, sent s rq)) /\
        (forall r, respond w (history s) rq = Responded r -> status_code r = 200 ->
           bytes_decode w (content r) = None ->
           run.1 = Raise UnicodeDecodeError) /\
        (forall r content_stringed,
           respond w (history s) rq = Responded r -> status_code r = 200 ->
           bytes_decode w (content r) = Some content_stringed ->
           xml_fromstring w content_stringed = None ->
           run.1 = Raise ParseError) /\
        (forall r content_stringed xml_root,
           respond w (history s) rq = Responded r -> status_code r = 200 ->
           bytes_decode w (content r) = Some content_stringed ->
           xml_fromstring w content_stringed = Some xml_root ->
           (findall_treenum_uris xml_root = [] -> run.1 = Ok false) /\
           (forall node0 others treenum_id,
              findall_treenum_uris xml_root = node0 :: others ->
              text node0 = Some treenum_id ->
              (search Base_tree_regex treenum_id = None -> run.1 = Ok false) /\
              (forall base_tree,
                 search Base_tree_regex treenum_id = Some base_tree ->
                 run.1 = Ok (startswith base_tree "C")))))) /\
  (forall (root : ascii) (rest : string),
     root <> "."%char ->
     exists base_tree,
       search Base_tree_regex ("http://id.nlm.nih.gov/mesh/" +:+ String root rest)
         = Some base_tree /\
       (startswith base_tree "C" = true <-> root = "C"%char)).
Proof.
  intros run. split; [apply is_mesh_disease_true |]. split.
  - intros items resource -> Hres. unfold run.
    rewrite (is_mesh_disease_run _ _ _ _ Hres). split.
    { by intros ->. }
    intros descriptor_id ->. split_and!.
    + by intros msg ->.
    + intros r -> Hst. apply is_success_other in Hst.
      unfold after_tree_query. by rewrite Hst.
    + intros r -> Hst Hdec. apply is_success_200 in Hst.
      unfold after_tree_query. by rewrite Hst, Hdec.
    + intros r c -> Hst Hdec Hxml. apply is_success_200 in Hst.
      unfold after_tree_query. by rewrite Hst, Hdec, Hxml.
    + intros r c xml_root -> Hst Hdec Hxml. apply is_success_200 in Hst.
      unfold after_tree_query. rewrite Hst, Hdec, Hxml. cbn [fst].
      split; [by intros -> |].
      intros node0 others treenum_id -> Htext. unfold under_diseases. rewrite Htext.
      split; [by intros -> | by intros base_tree ->].
  - intros root rest Hroot. eexists. split.
    + by apply base_tree_starts_with_root.
    + cbn [startswith]. apply Ascii.eqb_eq.
Qed.

(** Wolman Disease sits under C16: the classifier says [True]. *)
Lemma C4_classification_amended_witness :
  (is_mesh_disease wolman_world wolman start).1 = Ok true.
Proof.
  apply (proj1 (C4_classification_amended wolman_world wolman start)).
  unfold in_diseases_tree.
  eexists _, _, _, _, _, _, _, _, _, _.
  split_and!; reflexivity.
Defined.

(** C4 fails as stated: with a tree-query body that does not parse, the
    classifier raises [ParseError] instead of answering [False]. *)
Lemma C4_parse_failure_propagates :
  xml_fromstring garbled_tree_world "<sparql" = None /\
  (is_mesh_disease garbled_tree_world wolman start).1 = Raise ParseError /\
  (is_mesh_disease garbled_tree_world wolman start).1 <> Ok false.
Proof. split_and!; [reflexivity | reflexivity | discriminate]. Qed.

(** ** The workflow *)

Lemma lookup_request_mesh descriptor_label : mesh_request (lookup_request descriptor_label).
Proof.
  split; [by left |]. unfold configured. cbn [lookup_request req_url].
  assert (H : FeedQueryParams !! lookup_url = None) by reflexivity.
  rewrite H. by intros [? ?].
Qed.

Lemma sparql_request_mesh descriptor_id : mesh_request (sparql_request descriptor_id).
Proof.
  split; [by right |]. unfold configured. cbn [sparql_request req_url].
  assert (H : FeedQueryParams !! sparql_url = None) by reflexivity.
  rewrite H. by intros [? ?].
Qed.

Lemma is_mesh_disease_history w d s :
  exists new,
    history (is_mesh_disease w d s).2 = history s ++ new /\ Forall mesh_request new.
Proof.
  destruct (classic_resource d) as [(items & resource & -> & Hres) | Hno].
  2: { destruct (is_mesh_disease_no_resource w d s Hno) as [e ->].
       exists []. by rewrite app_nil_r. }
  rewrite (is_mesh_disease_run _ _ _ _ Hres).
  destruct (search Descriptor_id_regex resource) as [descriptor_id |].
  2: { exists []. by rewrite app_nil_r. }
  exists [sparql_request descriptor_id].
  split; [| repeat constructor; apply sparql_request_mesh].
  destruct (respond _ _ _) as [msg | r]; [reflexivity |].
  unfold after_tree_query. destruct (is_success r); [| reflexivity].
  destruct (bytes_decode _ _) as [c |]; [| reflexivity].
  destruct (xml_fromstring _ _); reflexivity.
Qed.

Lemma check_skip_unresolved w disease_name feed_urls inactivity_period_days s d s1 :
  fetch_mesh_descriptor w disease_name s = (Ok d, s1) ->
  truthy d = false ->
  check_disease_activity w (disease_name, feed_urls) inactivity_period_days s =
  (Ok tt, logged s1 WARNING (not_recognized_msg disease_name)).
Proof.
  intros Hfetch Hd. unfold check_disease_activity.
  rewrite (bind_ok _ _ _ _ _ Hfetch). unfold not_recognized. rewrite Hd.
  cbn [negb]. rewrite bind_ret, format_not_recognized. reflexivity.
Qed.

Lemma check_classified w disease_name feed_urls inactivity_period_days s d s1 b s2 :
  fetch_mesh_descriptor w disease_name s = (Ok d, s1) ->
  truthy d = true ->
  is_mesh_disease w d s1 = (Ok b, s2) ->
  check_disease_activity w (disease_name, feed_urls) inactivity_period_days s =
  if b then
    (label <- getitem d "label";;
     check_disease_feeds w (py_str w label) feed_urls inactivity_period_days) s2
  else (Ok tt, logged s2 WARNING (not_recognized_msg disease_name)).
Proof.
  intros Hfetch Hd Hmesh. unfold check_disease_activity.
  rewrite (bind_ok _ _ _ _ _ Hfetch). unfold not_recognized. rewrite Hd.
  cbn [negb]. unfold bind at 1. unfold bind at 1. rewrite Hmesh.
  destruct b; cbn [negb ret].
  - reflexivity.
  - rewrite format_not_recognized. reflexivity.
Qed.

(** C5: when the label resolves to no descriptor (the lookup gives a
    value that counts as false) or the descriptor is not classified as a
    disease, the unit ends with the warning that the name is not recognized;
    the only requests of the unit are those of the lookup and of the
    classification, none of which goes to a feed. *)
Theorem C5_not_recognized_skips (w : World) (disease_name : string)
    (feed_urls : list string) (inactivity_period_days : Z)
    (s s1 s2 : state) (d : json) :
  fetch_mesh_descriptor w disease_name s = (Ok d, s1) ->
  (truthy d = false /\ s2 = s1) \/
  (truthy d = true /\ is_mesh_disease w d s1 = (Ok false, s2)) ->
  check_disease_activity w (disease_name, feed_urls) inactivity_period_days s =
    (Ok tt, {| history := history s2;
               log := log s2 ++ [mkLog WARNING (not_recognized_msg disease_name)] |}) /\
  exists new, history s2 = history s ++ new /\ Forall mesh_request new.
Proof.
  intros Hfetch Hcase.
  pose proof (fetch_history w disease_name s) as Hh1. rewrite Hfetch in Hh1.
  cbn [snd] in Hh1.
  destruct Hcase as [[Hd ->] | [Hd Hmesh]].
  - split; [by apply (check_skip_unresolved _ _ _ _ _ d) |].
    exists [lookup_request disease_name].
    split; [done | repeat constructor; apply lookup_request_mesh].
  - split; [by rewrite (check_classified _ _ _ _ _ _ _ _ _ Hfetch Hd Hmesh) |].
    destruct (is_mesh_disease_history w d s1) as (new & Hh2 & Hnew).
    rewrite Hmesh in Hh2. cbn [snd] in Hh2.
    exists (lookup_request disease_name :: new). split.
    + rewrite Hh2, Hh1. by rewrite <- app_assoc.
    + constructor; [apply lookup_request_mesh | done].
Qed.

Lemma C5_not_recognized_skips_witness :
  check_disease_activity unknown_label_world ("Cron's Disease", [clinicaltrials]) 14 start =
  (Ok tt,
   {| history := [lookup_request "Cron's Disease"];
      log := [mkLog DEBUG "Call to https://id.nlm.nih.gov/mesh/lookup/descriptor took 0:00:01 seconds";
              mkLog WARNING "[Cron's Disease] is not a recognized MeSH disease descriptor name; skipping"] |}).
Proof.
  refine (proj1 (C5_not_recognized_skips unknown_label_world "Cron's Disease"
                   [clinicaltrials] 14 start
                   (fetch_mesh_descriptor unknown_label_world "Cron's Disease" start).2
                   (fetch_mesh_descriptor unknown_label_world "Cron's Disease" start).2
                   (JObj []) _ _)).
  - reflexivity.
  - left. split; reflexivity.
Defined.

Lemma log_inactivity_run disease_name total s :
  log_inactivity disease_name total s =
  (Ok tt, {| history := history s;
             log := log s ++ inactivity_report disease_name total |}).
Proof.
  destruct total as [count certain]. unfold log_inactivity, inactivity_report.
  cbn [fst snd]. destruct (count =? 0).
  - destruct certain.
    + rewrite format_inactive. reflexivity.
    + rewrite format_indeterminate. reflexivity.
  - unfold ret. rewrite app_nil_r. by destruct s.
Qed.

Lemma inactive_not_indeterminate disease_name :
  inactive_msg disease_name <> indeterminate_msg disease_name.
Proof. unfold inactive_msg, indeterminate_msg. cbn. discriminate. Qed.

Lemma check_disease_feeds_history w disease_name feed_urls inactivity_period_days s :
  exists evaluated remaining : list string,
    feed_urls = evaluated ++ remaining /\
    history (check_disease_feeds w disease_name feed_urls inactivity_period_days s).2 =
      history s ++ (evaluated ≫= feed_requests disease_name inactivity_period_days).
Proof.
  destruct (short_circuit_prefix w disease_name inactivity_period_days feed_urls s)
    as (evaluated & remaining & Hsplit & _ & _ & Hh & _).
  exists evaluated, remaining. split; [done |].
  rewrite <- Hh, <- feeds_activity_short_circuit.
  unfold check_disease_feeds, aggregate_feeds, bind.
  destruct (feeds_activity w disease_name feed_urls inactivity_period_days s)
    as [[results | e |] s1]; [| reflexivity | reflexivity].
  destruct results as [| x results]; [reflexivity |].
  cbn [reduce ret]. by rewrite log_inactivity_run.
Qed.

(** C6: after an aggregation that gave (count, certain), the workflow logs
    "has been inactive" exactly when count is 0 and certain holds, logs that
    inactivity could not be determined with certainty exactly when count is 0
    and certain does not hold, and logs nothing when count is positive.  For
    a recognized disease the feeds are checked under the label of the
    descriptor: every request sent to a feed carries that label. *)
Theorem C6_reports_and_canonical_label (w : World) (feed_urls : list string)
    (inactivity_period_days : Z) :
  (forall (disease_name : string) (s s1 : state) (count : Z) (certain : bool),
     aggregate_feeds w disease_name feed_urls inactivity_period_days s
       = (Ok (count, certain), s1) ->
     exists reports,
       check_disease_feeds w disease_name feed_urls inactivity_period_days s =
         (Ok tt, {| history := history s1; log := log s1 ++ reports |}) /\
       (reports = [mkLog INFO (inactive_msg disease_name)]
          <-> count = 0 /\ certain = true) /\
       (reports = [mkLog INFO (indeterminate_msg disease_name)]
          <-> count = 0 /\ certain = false) /\
       (0 < count -> reports = [])) /\
  (forall (disease_name canonical : string) (items : list (string * json))
          (s s1 s2 : state),
     fetch_mesh_descriptor w disease_name s = (Ok (JObj items), s1) ->
     assoc "label" items = Some (JStr canonical) ->
     is_mesh_disease w (JObj items) s1 = (Ok true, s2) ->
     check_disease_activity w (disease_name, feed_urls) inactivity_period_days s =
       check_disease_feeds w canonical feed_urls inactivity_period_days s2 /\
     exists evaluated remaining : list string,
       feed_urls = evaluated ++ remaining /\
       history (check_disease_activity w (disease_name, feed_urls)
                  inactivity_period_days s).2 =
         history s2 ++ (evaluated ≫= feed_requests canonical inactivity_period_days)).
Proof.
  split.
  - intros disease_name s s1 count certain Hagg.
    exists (inactivity_report disease_name (count, certain)).
    split; [| split; [| split]].
    + unfold check_disease_feeds. rewrite (bind_ok _ _ _ _ _ Hagg).
      apply log_inactivity_run.
    + unfold inactivity_report. cbn [fst snd].
      destruct (Z.eqb_spec count 0) as [-> | Hne]; [| split; [done | tauto]].
      destruct certain; split; try done; try (by intros [_ [=]]);
        try (intros [= H]; by destruct (inactive_not_indeterminate disease_name)).
    + unfold inactivity_report. cbn [fst snd].
      destruct (Z.eqb_spec count 0) as [-> | Hne]; [| split; [done | tauto]].
      destruct certain; split; try done; try (by intros [_ [=]]);
        try (intros [= H]; by destruct (inactive_not_indeterminate disease_name)).
    + intros Hpos. unfold inactivity_report. cbn [fst].
      destruct (Z.eqb_spec count 0); [lia | done].
  - intros disease_name canonical items s s1 s2 Hfetch Hlabel Hmesh.
    assert (Htruthy : truthy (JObj items) = true).
    { destruct items; [discriminate Hlabel | reflexivity]. }
    assert (Hrun : check_disease_activity w (disease_name, feed_urls)
                     inactivity_period_days s =
                   check_disease_feeds w canonical feed_urls inactivity_period_days s2).
    { rewrite (check_classified _ _ _ _ _ _ _ _ _ Hfetch Htruthy Hmesh).
      unfold getitem. rewrite Hlabel. reflexivity. }
    split; [done |]. rewrite Hrun. apply check_disease_feeds_history.
Qed.

(** A lower-case spelling resolves to the descriptor labelled Wolman
    Disease; the feed is asked about that label, holds no item, and the
    disease is reported inactive. *)
Lemma C6_reports_and_canonical_label_witness :
  (exists reports,
     check_disease_feeds wolman_world "Wolman Disease" [clinicaltrials] 14 start =
       (Ok tt,
        {| history := [feed_request "Wolman Disease" 14 clinicaltrials];
           log := [mkLog DEBUG "Call to https://clinicaltrials.gov/ct2/results/rss.xml took 0:00:01 seconds"]
                  ++ reports |}) /\
     (reports = [mkLog INFO (inactive_msg "Wolman Disease")] <-> 0 = 0 /\ true = true) /\
     (reports = [mkLog INFO (indeterminate_msg "Wolman Disease")]
        <-> 0 = 0 /\ true = false) /\
     (0 < 0 -> reports = [])) /\
  check_disease_activity wolman_world ("wolman disease", [clinicaltrials]) 14 start =
    check_disease_feeds wolman_world "Wolman Disease" [clinicaltrials] 14
      (is_mesh_disease wolman_world wolman
         (fetch_mesh_descriptor wolman_world "wolman disease" start).2).2.
Proof.
  split.
  - refine (proj1 (C6_reports_and_canonical_label wolman_world [clinicaltrials] 14)
              "Wolman Disease" start
              (mkState [feed_request "Wolman Disease" 14 clinicaltrials]
                 [mkLog DEBUG "Call to https://clinicaltrials.gov/ct2/results/rss.xml took 0:00:01 seconds"])
              0 true _).
    reflexivity.
  - refine (proj1 (proj2 (C6_reports_and_canonical_label wolman_world [clinicaltrials] 14)
              "wolman disease" "Wolman Disease" _ start _ _ _ _ _)).
    + reflexivity.
    + reflexivity.
    + reflexivity.
Defined.

(** * Further properties *)

(** ** Resolving a label, beyond the four cases *)

(** X1: a call of [fetch_mesh_descriptor] sends exactly one request, the
    exact-match lookup of the label with limit 10, whatever comes back and
    also when the call ends in an exception: there is no second attempt. *)
Theorem fetch_sends_one_request (w : World) (descriptor_label : string) (s : state) :
  history (fetch_mesh_descriptor w descriptor_label s).2 =
  history s ++
  [mkRequest "https://id.nlm.nih.gov/mesh/lookup/descriptor"
     (QDict [("label", JStr descriptor_label); ("match", JStr "exact");
             ("limit", JNum 10)])].
Proof. apply fetch_history. Qed.

(** X2: an exception leaves [fetch_mesh_descriptor] only after an answer
    with status 200, and only for three kinds of body: one that is not JSON
    ([ValueError]), a non-empty JSON object ([KeyError], from indexing it
    with 0), and a non-zero number or [true] ([TypeError]).  Indexing is
    guarded by the truth test, so [IndexError] never occurs. *)
Theorem fetch_raises_after_200 (w : World) (descriptor_label : string)
    (s s' : state) (e : exn) :
  fetch_mesh_descriptor w descriptor_label s = (Raise e, s') ->
  exists r,
    respond w (history s) (lookup_request descriptor_label) = Responded r /\
    status_code r = 200 /\
    ((e = ValueError /\ response_json w r = None) \/
     (e = KeyError /\ exists item items, response_json w r = Some (JObj (item :: items))) \/
     (e = TypeError /\
      ((exists n, n <> 0 /\ response_json w r = Some (JNum n)) \/
       response_json w r = Some (JBool true)))).
Proof.
  rewrite fetch_run.
  destruct (respond _ _ _) as [msg | r]; [discriminate |].
  unfold after_lookup. destruct (is_success r) eqn:Hst; [| discriminate].
  apply is_success_200 in Hst. intros Hrun. exists r. split; [done |]. split; [done |].
  destruct (response_json w r) as [decoded |].
  2: { injection Hrun as <- _. by left. }
  destruct decoded as [| b | n | str | items | items]; cbn in Hrun.
  - discriminate.
  - destruct b; [| discriminate]. injection Hrun as <- _. right. right. by eauto.
  - destruct n as [| p | p]; [discriminate | |];
      injection Hrun as <- _; right; right; (split; [done |]); left;
      eexists; (split; [| reflexivity]); lia.
  - destruct str as [| c str]; discriminate.
  - destruct items; discriminate.
  - destruct items as [| item items]; [discriminate |].
    injection Hrun as <- _. right. left. by eauto.
Qed.

Lemma fetch_raises_after_200_witness :
  exists r,
    respond garbled_lookup_world (history start) (lookup_request "Wolman Disease")
      = Responded r /\
    status_code r = 200 /\
    ((ValueError = ValueError /\ response_json garbled_lookup_world r = None) \/
     (ValueError = KeyError /\
      exists item items, response_json garbled_lookup_world r = Some (JObj (item :: items))) \/
     (ValueError = TypeError /\
      ((exists n, n <> 0 /\ response_json garbled_lookup_world r = Some (JNum n)) \/
       response_json garbled_lookup_world r = Some (JBool true)))).
Proof.
  apply (fetch_raises_after_200 garbled_lookup_world "Wolman Disease" start
           (fetch_mesh_descriptor garbled_lookup_world "Wolman Disease" start).2).
  reflexivity.
Defined.

(** X3: any decoded body that counts as false ([null], [false], 0, the
    empty string, list or object) is taken as no match: the empty dict comes
    back and nothing is raised. *)
Theorem fetch_falsy_body_is_no_match (w : World) (descriptor_label : string)
    (s : state) (r : response) (decoded : json) :
  respond w (history s) (lookup_request descriptor_label) = Responded r ->
  status_code r = 200 ->
  response_json w r = Some decoded ->
  truthy decoded = false ->
  fetch_mesh_descriptor w descriptor_label s =
  (Ok (JObj []),
   logged (sent s (lookup_request descriptor_label)) DEBUG (elapsed_msg lookup_url r)).
Proof.
  intros Hresp Hst Hjson Hfalse. apply is_success_200 in Hst.
  rewrite fetch_run, Hresp. unfold after_lookup. by rewrite Hst, Hjson, Hfalse.
Qed.

Lemma fetch_falsy_body_is_no_match_witness :
  fetch_mesh_descriptor null_lookup_world "Wolman Disease" start =
  (Ok (JObj []),
   logged (sent start (lookup_request "Wolman Disease")) DEBUG
     "Call to https://id.nlm.nih.gov/mesh/lookup/descriptor took 0:00:01 seconds").
Proof.
  refine (fetch_falsy_body_is_no_match null_lookup_world "Wolman Disease" start
            (mkResponse 200 "null" "0:00:01") JNull _ _ _ _); reflexivity.
Defined.

(** ** Classifying a descriptor: the request and the other exceptions *)

Lemma search_found_somewhere (re : regex) (s g : string) :
  search re s = Some g -> exists s', match_here re s' = Some g.
Proof.
  induction s as [| c s IH]; simpl.
  - destruct (match_here re "") as [g' |] eqn:E; [| discriminate].
    intros [= <-]. by exists "".
  - destruct (match_here re (String c s)) as [g' |] eqn:E.
    + intros [= <-]. by exists (String c s).
    + apply IH.
Qed.

Lemma take_while_all_in (a : cls) (s : string) : all_in a (take_while a s) = true.
Proof.
  induction s as [| c s IH]; [reflexivity |].
  simpl. destruct (a c) eqn:E; [| reflexivity]. simpl. by rewrite E.
Qed.

(** Group 1 of [Descriptor_id_regex] is one character that is no digit
    followed by digits, at least one. *)
Lemma descriptor_id_shape (s descriptor_id : string) :
  search Descriptor_id_regex s = Some descriptor_id ->
  exists c digits,
    descriptor_id = String c digits /\
    digit c = false /\ digits <> "" /\ all_in digit digits = true.
Proof.
  intros Hs. apply search_found_somewhere in Hs as [s' Hm].
  unfold match_here, Descriptor_id_regex in Hm.
  cbn [re_prefix group_singles group_plus] in Hm.
  destruct (match_atoms _ s') as [[m s1] |]; [| discriminate].
  cbn [mbind option_bind] in Hm.
  destruct s1 as [| c s2]; [discriminate |].
  cbn [match_atoms] in Hm.
  destruct (non_digit c) eqn:Hc; [| discriminate].
  cbn [mbind option_bind] in Hm.
  pose proof (take_while_all_in digit s2) as Hall.
  destruct (take_while digit s2) as [| d run]; [discriminate |].
  injection Hm as <-. exists c, (String d run).
  split; [reflexivity |]. split; [| done].
  unfold non_digit in Hc. by apply negb_true_iff.
Qed.

(** The requests of one call of [is_mesh_disease]: none, or the tree query
    for group 1 of the pattern on the resource. *)
Lemma is_mesh_disease_request w d s :
  history (is_mesh_disease w d s).2 = history s \/
  exists items resource descriptor_id,
    d = JObj items /\ assoc "resource" items = Some (JStr resource) /\
    search Descriptor_id_regex resource = Some descriptor_id /\
    history (is_mesh_disease w d s).2 = history s ++ [sparql_request descriptor_id].
Proof.
  destruct (classic_resource d) as [(items & resource & -> & Hres) | Hno].
  2: { destruct (is_mesh_disease_no_resource w d s Hno) as [e ->]. by left. }
  rewrite (is_mesh_disease_run _ _ _ _ Hres).
  destruct (search Descriptor_id_regex resource) as [descriptor_id |] eqn:Hid; [| by left].
  right. exists items, resource, descriptor_id. split_and!; try done.
  destruct (respond _ _ _) as [msg | r]; [reflexivity |].
  unfold after_tree_query. destruct (is_success r); [| reflexivity].
  destruct (bytes_decode _ _) as [c |]; [| reflexivity].
  destruct (xml_fromstring _ _); reflexivity.
Qed.

Lemma append_assoc (a b c : string) : (a +:+ b) +:+ c = a +:+ (b +:+ c).
Proof.
  induction a as [| x a IH]; [reflexivity |].
  change (String x ((a +:+ b) +:+ c) = String x (a +:+ (b +:+ c))). by rewrite IH.
Qed.

Lemma match_atoms_splits (p : list cls) (s m rest : string) :
  match_atoms p s = Some (m, rest) ->
  s = m +:+ rest /\ String.length m = length p.
Proof.
  revert s m rest. induction p as [| a p IH]; intros s m rest.
  - intros [= <- <-]. done.
  - destruct s as [| c s]; [discriminate |]. cbn [match_atoms].
    destruct (a c); [| discriminate].
    destruct (match_atoms p s) as [[m' rest'] |] eqn:E; [| discriminate].
    intros [= <- <-]. destruct (IH _ _ _ E) as [-> Hlen].
    split; [reflexivity |]. change (S (String.length m') = S (length p)).
    by rewrite Hlen.
Qed.

Lemma take_while_splits (a : cls) (s : string) :
  exists after, s = take_while a s +:+ after.
Proof.
  induction s as [| c s [after IH]]; [by exists "" |].
  cbn [take_while]. destruct (a c).
  - exists after.
    change (String c s = String c (take_while a s +:+ after)). by rewrite <- IH.
  - by exists (String c s).
Qed.

Lemma match_here_splits (re : regex) (s g : string) :
  match_here re s = Some g ->
  exists matched after,
    s = matched +:+ g +:+ after /\
    String.length matched = length (re_prefix re).
Proof.
  unfold match_here. intros E.
  destruct (match_atoms (re_prefix re) s) as [[m s1] |] eqn:E1; [| discriminate].
  apply match_atoms_splits in E1 as [-> Hlen]. cbn [mbind option_bind] in E.
  destruct (match_atoms (group_singles re) s1) as [[g1 s2] |] eqn:E2; [| discriminate].
  apply match_atoms_splits in E2 as [-> _]. cbn [mbind option_bind] in E.
  destruct (take_while_splits (group_plus re) s2) as [after Hafter].
  destruct (take_while (group_plus re) s2) as [| d run]; [discriminate |].
  injection E as <-. exists m, after. split; [| done].
  rewrite Hafter at 1. by rewrite append_assoc.
Qed.

(** Where a match sits: what the prefix of the pattern consumed, then
    group 1, somewhere in the subject. *)
Lemma search_splits (re : regex) (s g : string) :
  search re s = Some g ->
  exists before matched after,
    s = before +:+ matched +:+ g +:+ after /\
    String.length matched = length (re_prefix re).
Proof.
  induction s as [| c s IH]; cbn [search].
  - destruct (match_here re "") as [g' |] eqn:E; [| discriminate].
    intros [= <-]. apply match_here_splits in E as (matched & after & E & Hlen).
    by exists "", matched, after.
  - destruct (match_here re (String c s)) as [g' |] eqn:E.
    + intros [= <-]. apply match_here_splits in E as (matched & after & E & Hlen).
      by exists "", matched, after.
    + intros Hs. destruct (IH Hs) as (before & matched & after & -> & Hlen).
      by exists (String c before), matched, after.
Qed.

(** X4: one call of [is_mesh_disease] sends at most one request, and what
    it pastes into the text of the tree query is taken from the resource URI
    of the descriptor it was given: it is group 1 of [Descriptor_id_regex]
    on that URI, a piece of the URI that follows 27 characters matched by
    the address part of the pattern, and always one character that is no
    digit followed by one or more digits. *)
Theorem is_mesh_disease_query_shape (w : World) (mesh_descriptor : json) (s : state) :
  history (is_mesh_disease w mesh_descriptor s).2 = history s \/
  exists items resource before matched c digits after,
    mesh_descriptor = JObj items /\
    assoc "resource" items = Some (JStr resource) /\
    search Descriptor_id_regex resource = Some (String c digits) /\
    resource = before +:+ matched +:+ String c digits +:+ after /\
    String.length matched = 27%nat /\
    digit c = false /\ digits <> "" /\ all_in digit digits = true /\
    history (is_mesh_disease w mesh_descriptor s).2 =
      history s ++
      [mkRequest "https://id.nlm.nih.gov/mesh/sparql"
         (QDict [("query", JStr (treenum_query (String c digits)))])].
Proof.
  destruct (is_mesh_disease_request w mesh_descriptor s)
    as [Hnone | (items & resource & descriptor_id & Hd & Hres & Hid & Hh)]; [by left |].
  right.
  destruct (descriptor_id_shape _ _ Hid) as (c & digits & -> & Hc & Hne & Hall).
  destruct (search_splits _ _ _ Hid) as (before & matched & after & Hsplit & Hlen).
  exists items, resource, before, matched, c, digits, after.
  by split_and!.
Qed.

(** X5: a descriptor that is a dict without ['resource'] makes
    [is_mesh_disease] raise [KeyError]; a ['resource'] that is no string, or
    a descriptor that is no dict, makes it raise [TypeError].  In each case
    nothing has been sent or logged. *)
Theorem is_mesh_disease_needs_resource (w : World) (s : state) :
  (forall items,
     assoc "resource" items = None ->
     is_mesh_disease w (JObj items) s = (Raise KeyError, s)) /\
  (forall items v,
     assoc "resource" items = Some v -> (forall str, v <> JStr str) ->
     is_mesh_disease w (JObj items) s = (Raise TypeError, s)) /\
  (forall d,
     (forall items, d <> JObj items) ->
     is_mesh_disease w d s = (Raise TypeError, s)).
Proof.
  split_and!.
  - intros items Hres. unfold is_mesh_disease, getitem. by rewrite Hres.
  - intros items v Hres Hv. unfold is_mesh_disease, getitem. rewrite Hres, bind_ret.
    destruct v as [| b | n | str | l | o]; try reflexivity. by destruct (Hv str).
  - intros d Hd. destruct d as [| b | n | str | l | items]; try reflexivity.
    by destruct (Hd items).
Qed.

Lemma is_mesh_disease_needs_resource_witness :
  is_mesh_disease wolman_world (JObj [("label", JStr "Wolman Disease")]) start
  = (Raise KeyError, start).
Proof.
  apply (proj1 (is_mesh_disease_needs_resource wolman_world start)).
  reflexivity.
Defined.

(** X6: when the first tree-number node of a well-formed answer has no
    text, [is_mesh_disease] raises [TypeError] instead of answering. *)
Theorem is_mesh_disease_empty_uri (w : World) (s : state)
    (items : list (string * json)) (resource descriptor_id content_stringed : string)
    (r : response) (xml_root node0 : Element) (others : list Element) :
  assoc "resource" items = Some (JStr resource) ->
  search Descriptor_id_regex resource = Some descriptor_id ->
  respond w (history s) (sparql_request descriptor_id) = Responded r ->
  status_code r = 200 ->
  bytes_decode w (content r) = Some content_stringed ->
  xml_fromstring w content_stringed = Some xml_root ->
  findall_treenum_uris xml_root = node0 :: others ->
  text node0 = None ->
  (is_mesh_disease w (JObj items) s).1 = Raise TypeError.
Proof.
  intros Hres Hid Hresp Hst Hdec Hxml Hnodes Htext. apply is_success_200 in Hst.
  rewrite (is_mesh_disease_run _ _ _ _ Hres), Hid, Hresp.
  unfold after_tree_query. rewrite Hst, Hdec, Hxml, Hnodes.
  unfold under_diseases. by rewrite Htext.
Qed.

Lemma is_mesh_disease_empty_uri_witness :
  (is_mesh_disease empty_uri_world wolman start).1 = Raise TypeError.
Proof.
  refine (is_mesh_disease_empty_uri empty_uri_world start _
            "http://id.nlm.nih.gov/mesh/D015223" "D015223" "tree"
            (mkResponse 200 "tree" "0:00:01") _
            (mkElement (sparql_ns +:+ "uri") [] None []) [] _ _ _ _ _ _ _ _);
    reflexivity.
Defined.

(** ** One feed query: when it raises, and what it takes for silence *)

(** X7: an exception leaves [count_channel_items] only for a configured
    feed, after its one request was answered with status 200, and it is the
    decoder's or the parser's; an unconfigured feed, a refused connection or
    another status never raise. *)
Theorem count_raises_after_200 (w : World) (feed_url disease_name : string)
    (inactivity_period_days : Z) (s s' : state) (e : exn) :
  count_channel_items w feed_url disease_name inactivity_period_days s = (Raise e, s') ->
  let rq := feed_request disease_name inactivity_period_days feed_url in
  configured feed_url /\
  history s' = history s ++ [rq] /\
  exists r,
    respond w (history s) rq = Responded r /\
    status_code r = 200 /\
    ((e = UnicodeDecodeError /\ bytes_decode w (content r) = None) \/
     (e = ParseError /\
      exists content_stringed,
        bytes_decode w (content r) = Some content_stringed /\
        xml_fromstring w content_stringed = None)).
Proof.
  intros Hrun rq.
  destruct (decide (configured feed_url)) as [Hc | Hc].
  2: { by rewrite count_unconfigured in Hrun. }
  split; [done |]. rewrite count_configured in Hrun by done. fold rq in Hrun.
  destruct (respond w (history s) rq) as [msg | r]; [discriminate |].
  unfold after_response in Hrun.
  destruct (is_success r) eqn:Hst; [| discriminate]. apply is_success_200 in Hst.
  destruct (bytes_decode w (content r)) as [content_stringed |] eqn:Hdec.
  - destruct (xml_fromstring w content_stringed) eqn:Hxml; [discriminate |].
    injection Hrun as <- <-. split; [reflexivity |]. exists r.
    split_and!; try done. right. split; [done |]. by exists content_stringed.
  - injection Hrun as <- <-. split; [reflexivity |]. exists r.
    split_and!; try done. by left.
Qed.

Lemma count_raises_after_200_witness :
  let rq := feed_request "Wolman Disease" 14 clinicaltrials in
  configured clinicaltrials /\
  history (count_channel_items garbled_feed_world clinicaltrials
             "Wolman Disease" 14 start).2 = history start ++ [rq] /\
  exists r,
    respond garbled_feed_world (history start) rq = Responded r /\
    status_code r = 200 /\
    ((ParseError = UnicodeDecodeError /\ bytes_decode garbled_feed_world (content r) = None) \/
     (ParseError = ParseError /\
      exists content_stringed,
        bytes_decode garbled_feed_world (content r) = Some content_stringed /\
        xml_fromstring garbled_feed_world content_stringed = None)).
Proof.
  apply (count_raises_after_200 garbled_feed_world clinicaltrials "Wolman Disease" 14 start).
  reflexivity.
Defined.

Lemma no_channel_no_items (xml_root : Element) :
  Forall (fun child => tag child <> "channel") (children xml_root) ->
  findall_channel_items xml_root = [].
Proof.
  intros Hno. unfold findall_channel_items, select_child. cbn [mbind list_bind].
  assert (Hnil : filter (fun e => tag e = "channel") (children xml_root) = []).
  { induction Hno as [| child rest Hchild _ IH]; [reflexivity |].
    rewrite filter_cons. by destruct (decide (tag child = "channel")). }
  rewrite Hnil. reflexivity.
Qed.

(** X8: any well-formed XML answered with status 200 whose root has no
    [channel] child counts as a certain zero: an error page that happens to
    parse is read as (0, True), the value that makes the workflow report the
    disease inactive. *)
Theorem count_of_non_rss_document (w : World) (feed_url disease_name : string)
    (inactivity_period_days : Z) (s : state) (r : response)
    (content_stringed : string) (xml_root : Element) :
  configured feed_url ->
  respond w (history s) (feed_request disease_name inactivity_period_days feed_url)
    = Responded r ->
  status_code r = 200 ->
  bytes_decode w (content r) = Some content_stringed ->
  xml_fromstring w content_stringed = Some xml_root ->
  Forall (fun child => tag child <> "channel") (children xml_root) ->
  (count_channel_items w feed_url disease_name inactivity_period_days s).1
  = Ok (0, true).
Proof.
  intros Hc Hresp Hst Hdec Hxml Hno. apply is_success_200 in Hst.
  rewrite count_configured by done. rewrite Hresp.
  unfold after_response. rewrite Hst, Hdec, Hxml.
  by rewrite (no_channel_no_items _ Hno).
Qed.

Lemma count_of_non_rss_document_witness :
  (count_channel_items error_page_world clinicaltrials "Wolman Disease" 14 start).1
  = Ok (0, true).
Proof.
  refine (count_of_non_rss_document error_page_world clinicaltrials "Wolman Disease" 14
            start (mkResponse 200 "page" "0:00:01") "page"
            (mkElement "html" [] None [mkElement "body" [] (Some "Service unavailable") []])
            _ _ _ _ _ _).
  - by eexists.
  - reflexivity.
  - reflexivity.
  - reflexivity.
  - reflexivity.
  - repeat constructor. discriminate.
Defined.

(** ** The iterator on its own *)

(** X9: as long as [stop] is not called, pulling from an [__Inner] yields
    the items of the underlying list in their order and then ends; the object
    is left exhausted, not stopped. *)
Theorem exhaust_yields_all (it : nat) (xs : list string) :
  forall (fuel : nat) (h : store),
    h !! it = Some (mkInner xs false) ->
    (length xs < fuel)%nat ->
    exhaust fuel it h = Some (inr (xs, <[it := mkInner [] false]> h)).
Proof.
  induction xs as [| x rest IH]; intros fuel h Hh Hfuel;
    (destruct fuel as [| fuel]; [simpl in Hfuel; lia |]);
    cbn [exhaust]; unfold Inner_next; rewrite Hh; cbn [stop underlying_iterator].
  - by rewrite (list_insert_id _ _ _ Hh).
  - assert (Hlt : (it < length h)%nat) by (eapply lookup_lt_Some; eauto).
    rewrite (IH fuel (<[it := mkInner rest false]> h)).
    + by rewrite list_insert_insert_eq.
    + by apply list_lookup_insert_eq.
    + simpl in Hfuel. lia.
Qed.

Lemma exhaust_yields_all_witness :
  exhaust 3 0 [mkInner ["a"; "b"] false] = Some (inr (["a"; "b"], [mkInner [] false])).
Proof.
  apply (exhaust_yields_all 0 ["a"; "b"] 3 [mkInner ["a"; "b"] false]).
  - reflexivity.
  - simpl. lia.
Defined.

(** X10: [stop] is final and consumes nothing.  After it the object keeps
    the items it had left, every later pull ends the iteration at once
    without touching the store, a second [stop] changes nothing, and no
    other object is affected. *)
Theorem stop_is_final (it : nat) (h : store) (obj : Inner) :
  h !! it = Some obj ->
  exists h',
    Inner_stop it h = inr h' /\
    h' !! it = Some (mkInner (underlying_iterator obj) true) /\
    (forall j, j <> it -> h' !! j = h !! j) /\
    Inner_next it h' = inr (None, h') /\
    (forall fuel, exhaust (S fuel) it h' = Some (inr ([], h'))) /\
    Inner_stop it h' = inr h'.
Proof.
  intros Hh.
  assert (Hlt : (it < length h)%nat) by (eapply lookup_lt_Some; eauto).
  exists (<[it := mkInner (underlying_iterator obj) true]> h).
  assert (Hnew : <[it := mkInner (underlying_iterator obj) true]> h !! it
                 = Some (mkInner (underlying_iterator obj) true))
    by by apply list_lookup_insert_eq.
  assert (Hnext : Inner_next it (<[it := mkInner (underlying_iterator obj) true]> h)
                  = inr (None, <[it := mkInner (underlying_iterator obj) true]> h)).
  { unfold Inner_next. by rewrite Hnew. }
  split_and!.
  - unfold Inner_stop. by rewrite Hh.
  - done.
  - intros j Hj. by apply list_lookup_insert_ne.
  - done.
  - intros fuel. cbn [exhaust]. by rewrite Hnext.
  - unfold Inner_stop. rewrite Hnew. cbn [underlying_iterator].
    by rewrite list_insert_insert_eq.
Qed.

Lemma stop_is_final_witness :
  exists h',
    Inner_stop 0 [mkInner ["b"; "c"] false] = inr h' /\
    h' !! 0%nat = Some (mkInner ["b"; "c"] true) /\
    (forall j, j <> 0%nat -> h' !! j = [mkInner ["b"; "c"] false] !! j) /\
    Inner_next 0 h' = inr (None, h') /\
    (forall fuel, exhaust (S fuel) 0 h' = Some (inr ([], h'))) /\
    Inner_stop 0 h' = inr h'.
Proof.
  apply (stop_is_final 0 [mkInner ["b"; "c"] false] (mkInner ["b"; "c"] false)).
  reflexivity.
Defined.

(** X11: every [__iter__] makes a new [__Inner] over the whole iterable
    with the stop flag cleared, whatever became of an earlier one, and the
    feeder refers to the newest object only: calling the feeder with a
    positive count stops the newest iteration and leaves the earlier object
    as it was.  [h'] is the store at the time of the second [__iter__]. *)
Theorem iter_again_is_fresh (feeder feeder1 feeder2 : FeedsIterator)
    (h h1 h' h2 : store) (it1 it2 : nat) :
  SmartIterator_iter feeder h = (it1, feeder1, h1) ->
  length h' = length h1 ->
  SmartIterator_iter feeder1 h' = (it2, feeder2, h2) ->
  it2 <> it1 /\
  _inner feeder2 = Some it2 /\
  h2 !! it2 = Some (mkInner (iterable feeder) false) /\
  h2 !! it1 = h' !! it1 /\
  (forall (count : Z) (certainty : bool),
     0 < count ->
     exists h3,
       FeedsIterator_call feeder2 (count, certainty) h2 = inr ((count, certainty), h3) /\
       h3 !! it1 = h' !! it1 /\
       h3 !! it2 = Some (mkInner (iterable feeder) true)).
Proof.
  unfold SmartIterator_iter. intros [= <- <- <-] Hlen [= <- <- <-].
  cbn [iterable _inner]. rewrite length_app in Hlen. cbn [length] in Hlen.
  assert (Hne : length h' <> length h) by lia.
  assert (Hit2 : (h' ++ [mkInner (iterable feeder) false]) !! length h'
                 = Some (mkInner (iterable feeder) false)).
  { by rewrite list_lookup_middle. }
  assert (Hit1 : (h' ++ [mkInner (iterable feeder) false]) !! length h = h' !! length h).
  { apply lookup_app_l. lia. }
  split_and!; try done.
  intros count certainty Hpos. unfold FeedsIterator_call.
  assert (Hc : (0 <? count) = true) by lia. rewrite Hc. cbn [_inner].
  unfold Inner_stop. rewrite Hit2. cbn [on_value underlying_iterator].
  eexists. split; [reflexivity |]. split.
  - rewrite list_lookup_insert_ne by done. done.
  - apply list_lookup_insert_eq. rewrite length_app. simpl. lia.
Qed.

(** A first iteration gave one item and was stopped; iterating again starts
    over. *)
Lemma iter_again_is_fresh_witness :
  1%nat <> 0%nat /\
  _inner (mkFeedsIterator ["a"; "b"] (Some 1%nat)) = Some 1%nat /\
  [mkInner ["b"] true; mkInner ["a"; "b"] false] !! 1%nat
    = Some (mkInner (iterable (new_FeedsIterator ["a"; "b"])) false) /\
  [mkInner ["b"] true; mkInner ["a"; "b"] false] !! 0%nat = [mkInner ["b"] true] !! 0%nat /\
  (forall (count : Z) (certainty : bool),
     0 < count ->
     exists h3,
       FeedsIterator_call (mkFeedsIterator ["a"; "b"] (Some 1%nat)) (count, certainty)
         [mkInner ["b"] true; mkInner ["a"; "b"] false] = inr ((count, certainty), h3) /\
       h3 !! 0%nat = [mkInner ["b"] true] !! 0%nat /\
       h3 !! 1%nat = Some (mkInner (iterable (new_FeedsIterator ["a"; "b"])) true)).
Proof.
  apply (iter_again_is_fresh (new_FeedsIterator ["a"; "b"])
           (mkFeedsIterator ["a"; "b"] (Some 0%nat)) _
           [] [mkInner ["a"; "b"] false] [mkInner ["b"] true] _ 0 1);
    reflexivity.
Defined.

(** ** Aggregation: what the sum can be *)

Lemma total_count_is_last (results : list activity) :
  (forall i x, results !! i = Some x -> (S i < length results)%nat -> x.1 = 0) ->
  total_count results = last_count results.
Proof.
  unfold last_count. induction results as [| x results IH]; intros Hzero; [reflexivity |].
  destruct results as [| y results].
  - simpl. lia.
  - rewrite last_cons_cons. rewrite <- IH.
    + assert (Hx : x.1 = 0) by (apply (Hzero 0%nat x); [reflexivity | simpl; lia]).
      cbn [total_count foldr] in *. lia.
    + intros i z Hz Hi. apply (Hzero (S i) z); [done | simpl in *; lia].
Qed.

Lemma feeds_activity_stops w disease_name feed_urls inactivity_period_days s results s' :
  feeds_activity w disease_name feed_urls inactivity_period_days s = (Ok results, s') ->
  exists evaluated remaining : list string,
    feed_urls = evaluated ++ remaining /\
    (evaluated = [] -> remaining = []) /\
    history s' =
      history s ++ (evaluated ≫= feed_requests disease_name inactivity_period_days) /\
    length results = length evaluated /\
    stops_at_first_active results remaining.
Proof.
  intros Hrun. rewrite feeds_activity_short_circuit in Hrun.
  destruct (short_circuit_prefix w disease_name inactivity_period_days feed_urls s)
    as (evaluated & remaining & Hsplit & Hnil & _ & Hh & Hres).
  rewrite Hrun in Hh, Hres. cbn [fst snd] in Hh, Hres. destruct Hres as [Hlen Hstop].
  by exists evaluated, remaining.
Qed.

(** X12: the count that [aggregate_feeds] computes with [reduce] is the
    count of the last feed evaluated: the results of the run are some results
    that all have count 0 followed by a final one, and the aggregate count is
    the count of that final one.  The sum never adds two positive counts, and
    it says how many items the first active feed holds, not how many there
    are over all feeds. *)
Theorem aggregate_count_is_last_count (w : World) (disease_name : string)
    (feed_urls : list string) (inactivity_period_days : Z)
    (s s' : state) (count : Z) (certain : bool) :
  aggregate_feeds w disease_name feed_urls inactivity_period_days s
    = (Ok (count, certain), s') ->
  exists (earlier : list activity) (final : activity),
    feeds_activity w disease_name feed_urls inactivity_period_days s
      = (Ok (earlier ++ [final]), s') /\
    Forall (fun x : activity => x.1 = 0) earlier /\
    count = final.1.
Proof.
  unfold aggregate_feeds, bind.
  destruct (feeds_activity w disease_name feed_urls inactivity_period_days s)
    as [[results | e |] s1] eqn:Hrun; [| discriminate | discriminate].
  destruct results as [| x0 results0]; [discriminate |].
  rewrite reduce_add_activity. intros [= Hsum _ <-].
  assert (Hcount : count = total_count (x0 :: results0)) by (symmetry; exact Hsum).
  clear Hsum.
  destruct (feeds_activity_stops _ _ _ _ _ _ _ Hrun)
    as (evaluated & remaining & _ & _ & _ & _ & Hstop).
  assert (Hlast : total_count (x0 :: results0) = last_count (x0 :: results0)).
  { apply total_count_is_last. intros i x Hx Hi. by apply (Hstop i x Hx). }
  destruct (last (x0 :: results0)) as [final |] eqn:Hfinal.
  2: { by apply last_None in Hfinal. }
  apply last_Some in Hfinal as Hsplit. destruct Hsplit as [earlier Hsplit].
  exists earlier, final. rewrite <- Hsplit. split; [done |]. split.
  - apply Forall_lookup. intros i x Hx.
    apply lookup_lt_Some in Hx as Hlt.
    apply (Hstop i x).
    + rewrite Hsplit. by rewrite lookup_app_l.
    + rewrite Hsplit, length_app. simpl. lia.
  - rewrite Hcount, Hlast. unfold last_count. by rewrite Hfinal.
Qed.

(** An unconfigured feed, then an active one: (0, False) and (5, True)
    aggregate to count 5. *)
Lemma aggregate_count_is_last_count_witness :
  exists (earlier : list activity) (final : activity),
    feeds_activity five_items_world "Crohn Disease"
      ["https://example.org/rss"; clinicaltrials; clinicaltrials] 14 start
      = (Ok (earlier ++ [final]),
         (aggregate_feeds five_items_world "Crohn Disease"
            ["https://example.org/rss"; clinicaltrials; clinicaltrials] 14 start).2) /\
    Forall (fun x : activity => x.1 = 0) earlier /\
    5 = final.1.
Proof.
  apply (aggregate_count_is_last_count five_items_world "Crohn Disease"
           ["https://example.org/rss"; clinicaltrials; clinicaltrials] 14 start _ 5 false).
  reflexivity.
Defined.

(** X13: an aggregate count of 0, the only case in which a line about
    inactivity is logged, is reached only after every feed of the list has
    been evaluated, in order, each with count 0. *)
Theorem zero_aggregate_visits_every_feed (w : World) (disease_name : string)
    (feed_urls : list string) (inactivity_period_days : Z)
    (s s' : state) (certain : bool) :
  aggregate_feeds w disease_name feed_urls inactivity_period_days s
    = (Ok (0, certain), s') ->
  history s' =
    history s ++ (feed_urls ≫= feed_requests disease_name inactivity_period_days) /\
  exists results,
    feeds_activity w disease_name feed_urls inactivity_period_days s = (Ok results, s') /\
    length results = length feed_urls /\
    Forall (fun x : activity => x.1 = 0) results.
Proof.
  unfold aggregate_feeds, bind.
  destruct (feeds_activity w disease_name feed_urls inactivity_period_days s)
    as [[results | e |] s1] eqn:Hrun; [| discriminate | discriminate].
  destruct results as [| x0 results0]; [discriminate |].
  rewrite reduce_add_activity. intros [= Hsum _ <-].
  assert (Htotal : total_count (x0 :: results0) = 0) by exact Hsum. clear Hsum.
  destruct (feeds_activity_stops _ _ _ _ _ _ _ Hrun)
    as (evaluated & remaining & -> & Hnil & Hh & Hlen & Hstop).
  assert (Hlast : total_count (x0 :: results0) = last_count (x0 :: results0)).
  { apply total_count_is_last. intros i x Hx Hi. by apply (Hstop i x Hx). }
  assert (Hrem : remaining = []).
  { destruct remaining as [| u remaining]; [done | exfalso].
    unfold last_count in Hlast.
    destruct (last (x0 :: results0)) as [y |] eqn:Hy.
    - rewrite last_lookup in Hy.
      destruct (Hstop _ y Hy) as [_ Hpos].
      assert (0 < y.1) by (apply Hpos; [simpl; lia | done]). lia.
    - by apply last_None in Hy. }
  subst remaining. rewrite app_nil_r in *.
  split; [done |]. exists (x0 :: results0). split; [done |]. split; [done |].
  apply Forall_lookup. intros i x Hx.
  destruct (decide (S i < length (x0 :: results0))%nat) as [Hi | Hi].
  - by apply (Hstop i x Hx).
  - apply lookup_lt_Some in Hx as Hlt.
    assert (Hi' : i = pred (length (x0 :: results0))) by lia.
    unfold last_count in Hlast. rewrite last_lookup, <- Hi', Hx in Hlast. lia.
Qed.

Lemma zero_aggregate_visits_every_feed_witness :
  history (aggregate_feeds no_items_world "Wolman Disease"
             [clinicaltrials; clinicaltrials] 14 start).2 =
    history start ++ ([clinicaltrials; clinicaltrials] ≫= feed_requests "Wolman Disease" 14) /\
  exists results,
    feeds_activity no_items_world "Wolman Disease" [clinicaltrials; clinicaltrials] 14 start
      = (Ok results,
         (aggregate_feeds no_items_world "Wolman Disease"
            [clinicaltrials; clinicaltrials] 14 start).2) /\
    length results = length [clinicaltrials; clinicaltrials] /\
    Forall (fun x : activity => x.1 = 0) results.
Proof.
  apply (zero_aggregate_visits_every_feed no_items_world "Wolman Disease"
           [clinicaltrials; clinicaltrials] 14 start _ true).
  reflexivity.
Defined.

Lemma count_outcome_stateless w feed_url disease_name inactivity_period_days s1 s2 :
  (forall h1 h2 rq, respond w h1 rq = respond w h2 rq) ->
  (count_channel_items w feed_url disease_name inactivity_period_days s1).1 =
  (count_channel_items w feed_url disease_name inactivity_period_days s2).1.
Proof.
  intros Hsame. destruct (decide (configured feed_url)) as [Hc | Hc].
  - rewrite !count_configured by done. rewrite (Hsame (history s1) (history s2)).
    destruct (respond _ _ _) as [msg | r]; [reflexivity |].
    unfold after_response. destruct (is_success r); [| reflexivity].
    destruct (bytes_decode _ _) as [c |]; [| reflexivity].
    destruct (xml_fromstring _ _); reflexivity.
  - by rewrite !count_unconfigured.
Qed.

Lemma short_circuit_stateless w disease_name inactivity_period_days feed_urls :
  (forall h1 h2 rq, respond w h1 rq = respond w h2 rq) ->
  forall s1 s2,
    (short_circuit w disease_name inactivity_period_days feed_urls s1).1 =
    (short_circuit w disease_name inactivity_period_days feed_urls s2).1.
Proof.
  intros Hsame. induction feed_urls as [| feed_url rest IH]; intros s1 s2; [reflexivity |].
  cbn [short_circuit]. unfold bind at 1 3.
  pose proof (count_outcome_stateless w feed_url disease_name inactivity_period_days
                s1 s2 Hsame) as Hc.
  destruct (count_channel_items w feed_url disease_name inactivity_period_days s1)
    as [[x | e |] s1'],
    (count_channel_items w feed_url disease_name inactivity_period_days s2)
    as [[x' | e' |] s2']; cbn [fst] in Hc; try discriminate; try done.
  2: { cbn. congruence. }
  injection Hc as <-. destruct (0 <? x.1); [reflexivity |].
  rewrite !bind_ret_cons. cbn [fst]. by rewrite (IH s1' s2').
Qed.

(** X14: the program keeps nothing between two aggregations (each one
    builds its own iterator), so when the surroundings answer a request the
    same way whatever was asked before, aggregating again gives the same
    result, from any state. *)
Theorem aggregate_is_repeatable (w : World) (disease_name : string)
    (feed_urls : list string) (inactivity_period_days : Z) (s1 s2 : state) :
  (forall h1 h2 rq, respond w h1 rq = respond w h2 rq) ->
  (aggregate_feeds w disease_name feed_urls inactivity_period_days s1).1 =
  (aggregate_feeds w disease_name feed_urls inactivity_period_days s2).1.
Proof.
  intros Hsame. unfold aggregate_feeds, bind.
  pose proof (short_circuit_stateless w disease_name inactivity_period_days feed_urls
                Hsame s1 s2) as Hsc.
  rewrite <- !feeds_activity_short_circuit in Hsc.
  destruct (feeds_activity w disease_name feed_urls inactivity_period_days s1)
    as [[results | e |] s1'],
    (feeds_activity w disease_name feed_urls inactivity_period_days s2)
    as [[results' | e' |] s2']; cbn [fst] in Hsc; try discriminate; try done.
  2: { cbn. congruence. }
  injection Hsc as <-. by destruct results.
Qed.

(** Aggregating a second time, right after the first. *)
Lemma aggregate_is_repeatable_witness :
  (aggregate_feeds five_items_world "Crohn Disease" [clinicaltrials; clinicaltrials] 14
     start).1 =
  (aggregate_feeds five_items_world "Crohn Disease" [clinicaltrials; clinicaltrials] 14
     (aggregate_feeds five_items_world "Crohn Disease" [clinicaltrials; clinicaltrials] 14
        start).2).1.
Proof.
  apply (aggregate_is_repeatable five_items_world "Crohn Disease"
           [clinicaltrials; clinicaltrials] 14).
  reflexivity.
Defined.

(** ** One work unit: its requests, and a descriptor without a label *)

(** X15: when the lookup returns a descriptor that has no ['label'] and
    the classification says disease, [check_disease_activity] raises
    [KeyError] once the classification is done, before any feed is asked. *)
Theorem check_activity_needs_label (w : World) (disease_name : string)
    (feed_urls : list string) (inactivity_period_days : Z)
    (s s1 s2 : state) (items : list (string * json)) :
  fetch_mesh_descriptor w disease_name s = (Ok (JObj items), s1) ->
  assoc "label" items = None ->
  is_mesh_disease w (JObj items) s1 = (Ok true, s2) ->
  check_disease_activity w (disease_name, feed_urls) inactivity_period_days s
  = (Raise KeyError, s2).
Proof.
  intros Hfetch Hlabel Hmesh.
  assert (Htruthy : truthy (JObj items) = true).
  { destruct items; [discriminate Hmesh | reflexivity]. }
  rewrite (check_classified _ _ _ _ _ _ _ _ _ Hfetch Htruthy Hmesh).
  unfold getitem. by rewrite Hlabel.
Qed.

Lemma check_activity_needs_label_witness :
  check_disease_activity unlabelled_world ("Wolman Disease", [clinicaltrials]) 14 start
  = (Raise KeyError,
     (is_mesh_disease unlabelled_world unlabelled
        (fetch_mesh_descriptor unlabelled_world "Wolman Disease" start).2).2).
Proof.
  refine (check_activity_needs_label unlabelled_world "Wolman Disease" [clinicaltrials] 14
            start (fetch_mesh_descriptor unlabelled_world "Wolman Disease" start).2 _
            [("resource", JStr "http://id.nlm.nih.gov/mesh/D015223")] _ _ _);
    reflexivity.
Defined.

Lemma getitem_state d key s : (getitem d key s).2 = s.
Proof.
  destruct d as [| b | n | str | l | items]; try reflexivity.
  unfold getitem. by destruct (assoc key items).
Qed.





(** ** The run over all work units *)

Lemma extends_refl s : extends s s.
Proof. split; exists []; by rewrite app_nil_r. Qed.

Lemma extends_trans s1 s2 s3 : extends s1 s2 -> extends s2 s3 -> extends s1 s3.
Proof.
  intros [[r1 H1] [l1 L1]] [[r2 H2] [l2 L2]]. split.
  - exists (r1 ++ r2). by rewrite H2, H1, app_assoc.
  - exists (l1 ++ l2). by rewrite L2, L1, app_assoc.
Qed.

Lemma extends_sent s rq : extends s (sent s rq).
Proof. split; [by exists [rq] | exists []; by rewrite app_nil_r]. Qed.

Lemma extends_logged s l msg : extends s (logged s l msg).
Proof. split; [exists []; by rewrite app_nil_r | by eexists]. Qed.

Lemma appends_ret {A : Type} (a : A) : appends (ret a).
Proof. intros s. apply extends_refl. Qed.

Lemma appends_raise {A : Type} (e : exn) : appends (@raise A e).
Proof. intros s. apply extends_refl. Qed.

Lemma appends_bind {A B : Type} (m : M A) (k : A -> M B) :
  appends m -> (forall a, appends (k a)) -> appends (bind m k).
Proof.
  intros Hm Hk s. unfold bind. specialize (Hm s).
  destruct (m s) as [[a | e |] s1]; cbn [snd] in *; [| done | done].
  eapply extends_trans; [exact Hm | apply Hk].
Qed.

Lemma appends_logging l msg : appends (logging l msg).
Proof. intros s. apply (extends_logged s l msg). Qed.

Lemma appends_fetch w descriptor_label : appends (fetch_mesh_descriptor w descriptor_label).
Proof.
  intros s. rewrite fetch_run.
  pose proof (extends_sent s (lookup_request descriptor_label)) as Hsent.
  destruct (respond _ _ _) as [msg | r].
  { eapply extends_trans; [exact Hsent | apply extends_logged]. }
  unfold after_lookup. destruct (is_success r); [| done].
  assert (Hlog : extends s (logged (sent s (lookup_request descriptor_label)) DEBUG
                              (elapsed_msg lookup_url r))).
  { eapply extends_trans; [exact Hsent | apply extends_logged]. }
  destruct (response_json w r) as [decoded |]; [| done].
  destruct (truthy decoded); [| done].
  by destruct decoded as [| | | [| ? ?] | [| ? ?] | ].
Qed.

Lemma appends_is_mesh_disease w d : appends (is_mesh_disease w d).
Proof.
  intros s. destruct (classic_resource d) as [(items & resource & -> & Hres) | Hno].
  2: { destruct (is_mesh_disease_no_resource w d s Hno) as [e ->]. apply extends_refl. }
  rewrite (is_mesh_disease_run _ _ _ _ Hres).
  destruct (search Descriptor_id_regex resource) as [descriptor_id |];
    [| apply extends_refl].
  pose proof (extends_sent s (sparql_request descriptor_id)) as Hsent.
  destruct (respond _ _ _) as [msg | r].
  { eapply extends_trans; [exact Hsent | apply extends_logged]. }
  unfold after_tree_query. destruct (is_success r); [| done].
  assert (Hlog : extends s (logged (sent s (sparql_request descriptor_id)) DEBUG
                              (elapsed_msg sparql_url r))).
  { eapply extends_trans; [exact Hsent | apply extends_logged]. }
  destruct (bytes_decode _ _) as [c |]; [| done].
  destruct (xml_fromstring _ _); done.
Qed.

Lemma appends_count w feed_url disease_name inactivity_period_days :
  appends (count_channel_items w feed_url disease_name inactivity_period_days).
Proof.
  intros s. destruct (decide (configured feed_url)) as [Hc | Hc].
  2: { rewrite count_unconfigured by done. apply extends_logged. }
  rewrite count_configured by done.
  pose proof (extends_sent s (feed_request disease_name inactivity_period_days feed_url))
    as Hsent.
  destruct (respond _ _ _) as [msg | r].
  { eapply extends_trans; [exact Hsent | apply extends_logged]. }
  unfold after_response. destruct (is_success r); [| done].
  assert (Hlog : extends s
            (logged (sent s (feed_request disease_name inactivity_period_days feed_url))
               DEBUG (elapsed_msg feed_url r))).
  { eapply extends_trans; [exact Hsent | apply extends_logged]. }
  destruct (bytes_decode _ _) as [c |]; [| done].
  destruct (xml_fromstring _ _); done.
Qed.

Lemma appends_short_circuit w disease_name inactivity_period_days feed_urls :
  appends (short_circuit w disease_name inactivity_period_days feed_urls).
Proof.
  induction feed_urls as [| feed_url rest IH]; [apply appends_ret |].
  cbn [short_circuit]. apply appends_bind; [apply appends_count |].
  intros x. destruct (0 <? x.1); [apply appends_ret |].
  apply appends_bind; [exact IH | intros xs; apply appends_ret].
Qed.

Lemma appends_check_disease_feeds w disease_name feed_urls inactivity_period_days :
  appends (check_disease_feeds w disease_name feed_urls inactivity_period_days).
Proof.
  unfold check_disease_feeds, aggregate_feeds.
  apply appends_bind.
  - apply appends_bind.
    + intros s. rewrite feeds_activity_short_circuit. apply appends_short_circuit.
    + intros [| x results]; [apply appends_raise | apply appends_ret].
  - intros total s. rewrite log_inactivity_run.
    split; [exists []; by rewrite app_nil_r | by eexists].
Qed.

Lemma appends_check_disease_activity w work_unit inactivity_period_days :
  appends (check_disease_activity w work_unit inactivity_period_days).
Proof.
  destruct work_unit as [disease_name feed_urls]. unfold check_disease_activity.
  apply appends_bind; [apply appends_fetch |]. intros d.
  apply appends_bind.
  - unfold not_recognized. destruct (negb (truthy d)); [apply appends_ret |].
    apply appends_bind; [apply appends_is_mesh_disease | intros b; apply appends_ret].
  - intros [|].
    + rewrite format_not_recognized. apply appends_bind; [apply appends_ret |].
      intros msg. apply appends_logging.
    + apply appends_bind.
      * intros s. rewrite getitem_state. apply extends_refl.
      * intros label. apply appends_check_disease_feeds.
Qed.

Lemma appends_for_each w work_units inactivity_period_days :
  appends (for_each_work_unit w work_units inactivity_period_days).
Proof.
  induction work_units as [| work_unit rest IH]; [apply appends_ret |].
  cbn [for_each_work_unit].
  apply appends_bind; [apply appends_check_disease_activity | intros _; exact IH].
Qed.

Lemma for_each_app w (units1 units2 : list (string * list string)) inactivity_period_days s :
  for_each_work_unit w (units1 ++ units2) inactivity_period_days s =
  bind (for_each_work_unit w units1 inactivity_period_days)
       (fun _ => for_each_work_unit w units2 inactivity_period_days) s.
Proof.
  revert s. induction units1 as [| u units1 IH]; intros s; [reflexivity |].
  cbn [app for_each_work_unit]. unfold bind at 1 2 3.
  destruct (check_disease_activity w u inactivity_period_days s) as [[[] | e |] s1];
    [| reflexivity | reflexivity].
  rewrite IH. reflexivity.
Qed.

Lemma format_begin inactivity_period_days :
  format "Begin checking disease RSS feed activity; inactivity period = {period} days"
    [("period", pretty inactivity_period_days)]
  = ret (begin_msg inactivity_period_days).
Proof. reflexivity. Qed.

Lemma log_disease_inactivity_run w work_units inactivity_period_days s :
  log_disease_inactivity w work_units inactivity_period_days s =
  bind (for_each_work_unit w work_units inactivity_period_days)
       (fun _ => logging INFO end_msg)
       (logged s INFO (begin_msg inactivity_period_days)).
Proof. unfold log_disease_inactivity. rewrite format_begin. reflexivity. Qed.

(** X17: an exception in one work unit ends the whole run there: the units
    after it are not processed, and the closing line is not logged.  The run
    stops in the very state in which the unit raised. *)
Theorem run_stops_at_failing_unit (w : World)
    (processed rest : list (string * list string)) (work_unit : string * list string)
    (inactivity_period_days : Z) (s s1 s2 : state) (e : exn) :
  for_each_work_unit w processed inactivity_period_days
    (logged s INFO (begin_msg inactivity_period_days)) = (Ok tt, s1) ->
  check_disease_activity w work_unit inactivity_period_days s1 = (Raise e, s2) ->
  log_disease_inactivity w (processed ++ work_unit :: rest) inactivity_period_days s
  = (Raise e, s2).
Proof.
  intros Hdone Hraise. rewrite log_disease_inactivity_run.
  unfold bind at 1. rewrite for_each_app. rewrite (bind_ok _ _ _ _ _ Hdone).
  cbn [for_each_work_unit]. by rewrite (bind_raise _ _ _ _ _ Hraise).
Qed.

(** The tree query for the first unit comes back garbled; the second unit is
    never looked up. *)
Lemma run_stops_at_failing_unit_witness :
  log_disease_inactivity garbled_tree_world
    ([] ++ ("Wolman Disease", [clinicaltrials]) :: [("Crohn Disease", [clinicaltrials])])
    14 start
  = (Raise ParseError,
     (check_disease_activity garbled_tree_world ("Wolman Disease", [clinicaltrials]) 14
        (logged start INFO (begin_msg 14))).2).
Proof.
  apply (run_stops_at_failing_unit garbled_tree_world [] _ _ 14 start
           (logged start INFO (begin_msg 14))); reflexivity.
Defined.

(** X18: a run that returns has logged the opening line first and the
    closing line last, with everything the units logged in between, after
    whatever the log held before. *)
Theorem completed_run_is_bracketed (w : World) (work_units : list (string * list string))
    (inactivity_period_days : Z) (s s' : state) :
  log_disease_inactivity w work_units inactivity_period_days s = (Ok tt, s') ->
  exists middle,
    log s' =
    log s ++ mkLog INFO (begin_msg inactivity_period_days) :: middle ++
    [mkLog INFO "End checking disease RSS feed activity"].
Proof.
  rewrite log_disease_inactivity_run. unfold bind.
  pose proof (appends_for_each w work_units inactivity_period_days
                (logged s INFO (begin_msg inactivity_period_days))) as [_ [middle Hlog]].
  destruct (for_each_work_unit w work_units inactivity_period_days
              (logged s INFO (begin_msg inactivity_period_days)))
    as [[[] | e |] s1]; [| discriminate | discriminate].
  intros [= <-]. exists middle. cbn [snd log logged] in *.
  rewrite Hlog, <- !app_assoc. reflexivity.
Qed.

Lemma completed_run_is_bracketed_witness :
  exists middle,
    log (log_disease_inactivity wolman_world [("Wolman Disease", [clinicaltrials])] 14
           start).2 =
    log start ++ mkLog INFO (begin_msg 14) :: middle ++
    [mkLog INFO "End checking disease RSS feed activity"].
Proof.
  apply (completed_run_is_bracketed wolman_world [("Wolman Disease", [clinicaltrials])] 14
           start).
  reflexivity.
Defined.

(** ** The command line *)

Lemma do_shorts_from opts optstring :
  do_shorts opts optstring =
  match do_shorts [] optstring with
  | inl exc => inl exc
  | inr found => inr (opts ++ found)
  end.
Proof.
  revert opts. induction optstring as [| c optstring IH]; intros opts.
  - simpl. by rewrite app_nil_r.
  - cbn [do_shorts]. destruct (Ascii.eqb c "d"); [| reflexivity].
    rewrite (IH (opts ++ [("-d", "")])), (IH ([] ++ [("-d", "")])).
    destruct (do_shorts [] optstring); [reflexivity |]. by rewrite <- app_assoc.
Qed.

Lemma getopt_from opts args :
  getopt opts args =
  match getopt [] args with
  | inl exc => inl exc
  | inr (found, rest) => inr (opts ++ found, rest)
  end.
Proof.
  revert opts. induction args as [| arg args IH]; intros opts.
  - simpl. by rewrite app_nil_r.
  - destruct arg as [| c1 tail1]; [simpl; by rewrite app_nil_r |].
    cbn [getopt]. destruct (Ascii.eqb c1 "-"); [| by rewrite app_nil_r].
    destruct tail1 as [| c2 tail2]; [by rewrite app_nil_r |].
    destruct (Ascii.eqb c2 "-").
    + destruct tail2; [by rewrite app_nil_r | reflexivity].
    + rewrite (do_shorts_from opts).
      destruct (do_shorts [] (String c2 tail2)) as [exc | found]; [reflexivity |].
      rewrite (IH (opts ++ found)), (IH found).
      destruct (getopt [] args) as [exc | [found' rest]]; [reflexivity |].
      by rewrite app_assoc.
Qed.

Lemma choose_level_after_d opts : choose_level (("-d", "") :: opts) = DEBUG.
Proof.
  unfold choose_level. cbn [fold_left fst]. cbn.
  induction opts as [| o opts IH]; [reflexivity |].
  cbn [fold_left]. by destruct (_ || _).
Qed.

(** X19: no long option is accepted.  With [--debug], which the usage line
    of the module offers, or any other [--name] as first argument, [main]
    exits with "option --name not recognized" and the workflow is not run. *)
Theorem main_rejects_long_options (w : World) (prog name : string)
    (rest : list string) (s : state) :
  name <> "" ->
  main w (prog :: ("--" +:+ name) :: rest) s =
  SystemExit ("option --" +:+ before_equals name +:+ " not recognized").
Proof.
  intros Hname. unfold main. cbn [drop].
  change ("--" +:+ name) with (String "-" (String "-" name)).
  cbn [getopt]. cbn. by destruct name.
Qed.

Lemma main_rejects_long_options_witness :
  main wolman_world ["main.py"; "--debug"] start =
  SystemExit "option --debug not recognized".
Proof.
  apply (main_rejects_long_options wolman_world "main.py" "debug" [] start).
  discriminate.
Defined.

(** X20: a leading [-d] changes nothing but the logging level: what [main]
    does with the remaining arguments is what it does without it, under
    [DEBUG]. *)
Theorem main_leading_d (w : World) (prog : string) (rest : list string) (s : state) :
  main w (prog :: "-d" :: rest) s =
  match main w (prog :: rest) s with
  | SystemExit msg => SystemExit msg
  | Completed _ run => Completed DEBUG run
  end.
Proof.
  unfold main. cbn [drop]. rewrite ?drop_0.
  cbn [getopt]. cbn [Ascii.eqb Bool.eqb do_shorts app].
  rewrite (getopt_from [("-d", "")]).
  destruct (getopt [] rest) as [exc | [found rest']]; [reflexivity |].
  cbn [app]. by rewrite choose_level_after_d.
Qed.
